(** * Cars EDA dashboard ([app.py]): a shallow embedding and its properties

    The script reads two CSV files into pandas frames and renders one of
    three pages.  Everything the script computes itself is a handful of
    pandas expressions: a boolean-mask filter, a dtype split of the columns,
    a few reductions and three [if]/[elif] chart selections.  This file
    embeds those expressions over an explicit model of the frame and proves
    what the specification says about them. *)

From Stdlib Require Import String Ascii List ZArith QArith Bool Lia Lqa.
From Stdlib Require Import OrderedTypeEx Permutation.
From Stdlib Require Sorted.
Import ListNotations.
Local Open Scope string_scope.
Local Open Scope Z_scope.

(* ===================================================================== *)
(** ** Data model *)

(** The dtypes a column can carry.  [read_csv] with default arguments
    produces [int64], [float64], [bool_] and [object_]; [datetime64] stands
    for the remaining non-numeric, non-object dtypes. *)
Inductive dtype : Type :=
| int64
| float64
| bool_
| object_
| datetime64.

(** A cell.  Numbers are integers (an [int64] column, or a float column read
    at a fixed scale); [VNaN] is the missing-value marker. *)
Inductive value : Type :=
| VNum (z : Z)
| VNaN
| VStr (s : string)
| VBool (b : bool).

(** A [Series] is the list of cells of one column, in row order.  Frames
    come from [read_csv], so the row labels are [0, 1, 2, ...] and a label
    is a position. *)
Definition Series := list value.

(** A frame keeps its schema (column names with their declared dtype, in
    column order) apart from its rows, so that a frame without rows still
    has typed columns. *)
Record DataFrame : Type := mkDataFrame {
  columns : list (string * dtype);
  rows : list (list value)
}.

Definition column_names (df : DataFrame) : list string :=
  map fst (columns df).

(** [len(df)] *)
Definition len (df : DataFrame) : Z := Z.of_nat (length (rows df)).

(** [name in df.columns] *)
Definition has_column (name : string) (df : DataFrame) : bool :=
  existsb (String.eqb name) (column_names df).

(** A Python float as far as the script looks at it: [nan] or a finite
    number. *)
Inductive float : Type :=
| nan
| fin (q : Q).

(* ===================================================================== *)
(** ** Exceptions *)

Inductive exn : Type :=
| KeyError (key : string)
| TypeError
| ValueError
| IndexError
| StreamlitAPIException.

Inductive result (A : Type) : Type :=
| Ok (a : A)
| Raise (e : exn).
Arguments Ok {A} a.
Arguments Raise {A} e.

Definition bind {A B : Type} (m : result A) (f : A -> result B) : result B :=
  match m with
  | Ok a => f a
  | Raise e => Raise e
  end.

Declare Scope result_scope.
Delimit Scope result_scope with result.
Notation "x <- m ;; k" := (bind m (fun x => k))
  (at level 61, m at next level, right associativity) : result_scope.

(* ===================================================================== *)
(** ** Column access *)

Fixpoint index_of (name : string) (names : list string) : option nat :=
  match names with
  | [] => None
  | n :: rest =>
      if String.eqb name n then Some O
      else option_map S (index_of name rest)
  end.

Definition cell (j : nat) (row : list value) : value := nth j row VNaN.

Definition column_at (j : nat) (df : DataFrame) : Series :=
  map (cell j) (rows df).

(** [df[name]]: the column, or [KeyError]. *)
Definition getitem (df : DataFrame) (name : string) : result Series :=
  match index_of name (column_names df) with
  | Some j => Ok (column_at j df)
  | None => Raise (KeyError name)
  end.

(* ===================================================================== *)
(** ** Column Classifier (lines 99-100) *)

(** [np.number] covers the integer and floating dtypes, not [bool_]. *)
Definition np_number (d : dtype) : bool :=
  match d with
  | int64 | float64 => true
  | _ => false
  end.

(** [include="object"] *)
Definition is_object (d : dtype) : bool :=
  match d with
  | object_ => true
  | _ => false
  end.

Definition project (keep : list bool) (row : list value) : list value :=
  map snd (filter fst (combine keep row)).

(** [df.select_dtypes(include=...)] keeps the columns whose dtype is
    included, in their order, with their cells. *)
Definition select_dtypes (include : dtype -> bool) (df : DataFrame)
  : DataFrame :=
  let keep := map (fun c => include (snd c)) (columns df) in
  {| columns := filter (fun c => include (snd c)) (columns df);
     rows := map (project keep) (rows df) |}.

(** [df.select_dtypes(include=np.number).columns.tolist()] *)
Definition num_cols (df : DataFrame) : list string :=
  column_names (select_dtypes np_number df).

(** [df.select_dtypes(include="object").columns.tolist()] *)
Definition cat_cols (df : DataFrame) : list string :=
  column_names (select_dtypes is_object df).

(** [x in cols] on a Python list of names. *)
Definition mem (x : string) (cols : list string) : bool :=
  existsb (String.eqb x) cols.

(** [l1] keeps the order of [l2]: it is [l2] with some elements left out. *)
Inductive sublist {A : Type} : list A -> list A -> Prop :=
| sublist_nil : sublist [] []
| sublist_skip : forall x l1 l2, sublist l1 l2 -> sublist l1 (x :: l2)
| sublist_keep : forall x l1 l2, sublist l1 l2 -> sublist (x :: l1) (x :: l2).

(* ===================================================================== *)
(** ** Series operations *)

Definition value_eqb (a b : value) : bool :=
  match a, b with
  | VNum x, VNum y => Z.eqb x y
  | VNaN, VNaN => true
  | VStr s, VStr t => String.eqb s t
  | VBool p, VBool q => Bool.eqb p q
  | _, _ => false
  end.

Definition isna (v : value) : bool :=
  match v with
  | VNaN => true
  | _ => false
  end.

Definition is_str (v : value) : bool :=
  match v with
  | VStr _ => true
  | _ => false
  end.

(** The number a cell stands for in a numeric reduction or comparison:
    booleans count as 0 and 1, missing values and text have none. *)
Definition num_of (v : value) : option Z :=
  match v with
  | VNum z => Some z
  | VBool b => Some (if b then 1 else 0)
  | _ => None
  end.

(** The non-missing numbers of a series, in order ([skipna=True]). *)
Definition nums (s : Series) : list Z :=
  flat_map (fun v => match num_of v with Some z => [z] | None => [] end) s.

(** A numeric reduction or an order comparison with a number stops with
    [TypeError] on a text cell.  For [min] and [max] this is a
    simplification: pandas orders the strings of a text column and the run
    fails, or not, at the [int()] around them and at [between]; nothing
    below is stated about [min], [max] or the year slider on a column with
    text. *)
Definition numeric (s : Series) : result (list Z) :=
  if existsb is_str s then Raise TypeError else Ok (nums s).

(** [s.isin(values)]: membership cell by cell; a missing cell matches a
    missing value in [values]. *)
Definition isin (s : Series) (values : list value) : list bool :=
  map (fun v => existsb (value_eqb v) values) s.

Definition in_interval (left right : Z) (v : value) : bool :=
  match num_of v with
  | Some z => (left <=? z) && (z <=? right)
  | None => false
  end.

(** [s.between(left, right)], both ends inclusive; a missing cell gives
    [False]. *)
Definition between (s : Series) (left right : Z) : result (list bool) :=
  if existsb is_str s then Raise TypeError
  else Ok (map (in_interval left right) s).

(** [mask1 & mask2] *)
Definition mask_and (m1 m2 : list bool) : list bool :=
  map (fun p => fst p && snd p) (combine m1 m2).

(** [df[mask]]: the rows whose mask entry is [True], columns unchanged. *)
Definition boolean_index (df : DataFrame) (mask : list bool) : DataFrame :=
  {| columns := columns df;
     rows := map snd (filter fst (combine mask (rows df))) |}.

(** [s.unique()]: the distinct cells in order of first appearance, a
    missing value included once. *)
Fixpoint unique (s : Series) : list value :=
  match s with
  | [] => []
  | v :: rest => v :: filter (fun w => negb (value_eqb w v)) (unique rest)
  end.

Definition dropna (s : Series) : Series :=
  filter (fun v => negb (isna v)) s.

(** [s.nunique()]: distinct non-missing cells. *)
Definition nunique (s : Series) : Z :=
  Z.of_nat (length (unique (dropna s))).

(** [s.min()] and [s.max()], [nan] when there is no number. *)
Definition Series_min (s : Series) : result float :=
  (l <- numeric s ;;
   Ok match l with
      | [] => nan
      | z :: rest => fin (inject_Z (fold_left Z.min rest z))
      end)%result.

Definition Series_max (s : Series) : result float :=
  (l <- numeric s ;;
   Ok match l with
      | [] => nan
      | z :: rest => fin (inject_Z (fold_left Z.max rest z))
      end)%result.

(** [s.mean()]: the exact mean of the non-missing numbers; the rounding of
    the floating-point sum and division is not modelled. *)
Definition mean (s : Series) : result float :=
  (l <- numeric s ;;
   Ok match l with
      | [] => nan
      | _ => fin (Qdiv (inject_Z (fold_left Z.add l 0))
                   (inject_Z (Z.of_nat (length l))))
      end)%result.

(** [int(x)]: truncation toward zero; [int(nan)] raises. *)
Definition py_int (x : float) : result Z :=
  match x with
  | nan => Raise ValueError
  | fin q => Ok (Z.quot (Qnum q) (Zpos (Qden q)))
  end.

(** [round(x, ndigits)]: to the nearest multiple of [10^-ndigits], halves
    to even; [round(nan, ndigits)] is [nan].  The rounding is that of the
    exact number: a binary float that lies just below or above a half-way
    point goes the other way than its decimal notation suggests, which is
    not modelled. *)
Definition py_round (x : float) (ndigits : nat) : float :=
  match x with
  | nan => nan
  | fin q =>
      let scale := Z.pow 10 (Z.of_nat ndigits) in
      let n := Qnum q * scale in
      let d := Zpos (Qden q) in
      let lower := n / d in
      let twice := 2 * (n mod d) in
      let up := (d <? twice) || ((twice =? d) && Z.odd lower) in
      fin (Qmake (if up then lower + 1 else lower) (Z.to_pos scale))
  end.

(** [s.idxmax()]: the label of the first occurrence of the maximum among
    the non-missing cells.  [best] is the running maximum with its
    position, [i] the current position. *)
Fixpoint idxmax_from (s : Series) (i : nat) (best : option (nat * Z))
  : option (nat * Z) :=
  match s with
  | [] => best
  | v :: rest =>
      match num_of v, best with
      | Some z, Some (_, b) =>
          if b <? z then idxmax_from rest (S i) (Some (i, z))
          else idxmax_from rest (S i) best
      | Some z, None => idxmax_from rest (S i) (Some (i, z))
      | None, _ => idxmax_from rest (S i) best
      end
  end.

(** The same scan over a column of text, in the order of the strings. *)
Fixpoint idxmax_text_from (s : Series) (i : nat)
  (best : option (nat * string)) : option (nat * string) :=
  match s with
  | [] => best
  | VStr t :: rest =>
      match best with
      | Some (_, b) =>
          if String.ltb b t then idxmax_text_from rest (S i) (Some (i, t))
          else idxmax_text_from rest (S i) best
      | None => idxmax_text_from rest (S i) (Some (i, t))
      end
  | _ :: rest => idxmax_text_from rest (S i) best
  end.

(** On a column that is all text the greatest string wins; text next to a
    number or a missing value cannot be compared and gives [TypeError]. *)
Definition idxmax (s : Series) : result nat :=
  if existsb is_str s then
    if forallb is_str s then
      match idxmax_text_from s O None with
      | Some (i, _) => Ok i
      | None => Raise ValueError
      end
    else Raise TypeError
  else match idxmax_from s O None with
       | Some (i, _) => Ok i
       | None => Raise ValueError
       end.

(** [df.loc[label, name]] *)
Definition loc (df : DataFrame) (label : nat) (name : string)
  : result value :=
  match index_of name (column_names df) with
  | None => Raise (KeyError name)
  | Some j =>
      match nth_error (rows df) label with
      | Some row => Ok (cell j row)
      | None => Raise (KeyError "label")
      end
  end.

(** Stable insertion sort: among elements that compare equal the earlier
    one stays first. *)
Fixpoint insert {A : Type} (leb : A -> A -> bool) (a : A) (l : list A)
  : list A :=
  match l with
  | [] => [a]
  | b :: rest => if leb a b then a :: l else b :: insert leb a rest
  end.

Definition sort {A : Type} (leb : A -> A -> bool) (l : list A) : list A :=
  fold_right (insert leb) [] l.

(** The order [np.sort] puts the cells of one column in: numbers by value,
    text by code point.  Cells of different kinds do not meet in a column
    parsed from a file; they are ranked by kind to keep the order total. *)
Definition kind_rank (v : value) : Z :=
  match v with
  | VBool _ => 0
  | VNum _ => 1
  | VStr _ => 2
  | VNaN => 3
  end.

Definition value_leb (a b : value) : bool :=
  match a, b with
  | VNum x, VNum y => x <=? y
  | VStr s, VStr t => String.leb s t
  | VBool p, VBool q => implb p q
  | _, _ => kind_rank a <=? kind_rank b
  end.

Definition count (v : value) (s : Series) : nat :=
  length (filter (value_eqb v) s).

(** [s.mode()]: the non-missing values with the highest number of
    occurrences, sorted. *)
Definition mode (s : Series) : Series :=
  let vals := dropna s in
  let distinct := unique vals in
  let top := fold_right Nat.max O (map (fun v => count v vals) distinct) in
  sort value_leb
    (filter (fun v => Nat.eqb (count v vals) top) distinct).

(** [s[0]] on the result of [mode()], whose labels are [0, 1, ...]. *)
Definition getitem0 (s : Series) : result value :=
  match s with
  | v :: _ => Ok v
  | [] => Raise (KeyError "0")
  end.

(* ===================================================================== *)
(** ** Correlation *)

(** One column of a correlation matrix, or a sorted view of it: labels with
    their coefficient. *)
Definition labelled := list (string * float).

(** A correlation matrix, column by column. *)
Definition matrix := list (string * labelled).

(** [m[name]] *)
Definition matrix_getitem (m : matrix) (name : string) : result labelled :=
  match find (fun c => String.eqb name (fst c)) m with
  | Some c => Ok (snd c)
  | None => Raise (KeyError name)
  end.

Definition finite_entries (s : labelled) : list (string * Q) :=
  flat_map (fun e => match snd e with
                     | fin q => [(fst e, q)]
                     | nan => []
                     end) s.

Definition nan_entries (s : labelled) : labelled :=
  filter (fun e => match snd e with nan => true | fin _ => false end) s.

Definition desc (a b : string * Q) : bool := Qle_bool (snd b) (snd a).

(** [s.sort_values(ascending=False)]: the finite entries by decreasing
    value, then the [nan] entries in their original order
    ([na_position="last"]).  Entries with equal values are kept in their
    original order; numpy does not promise that for its default sort kind,
    so nothing below is made to rest on the order of equal finite
    entries. *)
Definition sort_values_desc (s : labelled) : labelled :=
  (map (fun e => (fst e, fin (snd e))) (sort desc (finite_entries s))
   ++ nan_entries s)%list.

(** [s.index[n]] *)
Definition index_at (s : labelled) (n : nat) : result string :=
  match nth_error (map fst s) n with
  | Some label => Ok label
  | None => Raise IndexError
  end.

(** The rows both columns have a number in. *)
Definition paired (xs ys : Series) : list (Z * Z) :=
  flat_map (fun p => match num_of (fst p), num_of (snd p) with
                     | Some a, Some b => [(a, b)]
                     | _, _ => []
                     end) (combine xs ys).

Definition constant (l : list Z) : bool :=
  match l with
  | [] => true
  | a :: rest => forallb (Z.eqb a) rest
  end.

Section Correlation.

(** The coefficient pandas computes in floating point from the paired
    observations when both columns vary.  Its value is left open; what
    the model fixes is when the result is [nan]. *)
Variable pearson : list (Z * Z) -> Q.

(** [xs.corr(ys)], and one entry of [df.corr()]: [nan] when there is no
    paired observation or one side has zero variance (the divisor is
    zero). *)
Definition Series_corr (xs ys : Series) : float :=
  let p := paired xs ys in
  if constant (map fst p) || constant (map snd p) then nan
  else fin (pearson p).

(** [df.corr()] *)
Definition corr (df : DataFrame) : matrix :=
  let idx := combine (seq O (length (columns df))) (column_names df) in
  map (fun c =>
         (snd c,
          map (fun r => (snd r,
                         Series_corr (column_at (fst r) df)
                                     (column_at (fst c) df))) idx))
      idx.

(** Lines 229-230:
    [clean.select_dtypes(include=np.number).corr()["Price"]
          .sort_values(ascending=False).index[1]] *)
Definition strongest_correlation (clean : DataFrame) : result string :=
  (s <- matrix_getitem (corr (select_dtypes np_number clean)) "Price" ;;
   index_at (sort_values_desc s) 1)%result.

End Correlation.

(* ===================================================================== *)
(** ** Filter Engine (lines 82-96) *)

(** The default of the manufacturer multiselect:
    [clean["Company_Name"].unique()]. *)
Definition company_options (clean : DataFrame) : result (list value) :=
  (c <- getitem clean "Company_Name" ;; Ok (unique c))%result.

(** The ends of the year slider, which are also its default selection:
    [(int(clean["Year"].min()), int(clean["Year"].max()))].  Cells are
    whole numbers, so [int()] changes nothing here; on a float column with
    a fractional year it would cut the fraction off. *)
Definition year_range (clean : DataFrame) : result (Z * Z) :=
  (y <- getitem clean "Year" ;;
   lo <- Series_min y ;;
   lo <- py_int lo ;;
   y <- getitem clean "Year" ;;
   hi <- Series_max y ;;
   hi <- py_int hi ;;
   Ok (lo, hi))%result.

(** Lines 95-96:
    [clean[(clean["Company_Name"].isin(company)) &
           (clean["Year"].between(year[0], year[1]))]] *)
Definition filter_engine (clean : DataFrame) (company : list value)
  (year : Z * Z) : result DataFrame :=
  (c <- getitem clean "Company_Name" ;;
   y <- getitem clean "Year" ;;
   b <- between y (fst year) (snd year) ;;
   Ok (boolean_index clean (mask_and (isin c company) b)))%result.

(** [clean.loc[clean["Price"].idxmax(), "Company_Name"]] (line 223) *)
Definition highest_price_car (clean : DataFrame) : result value :=
  (p <- getitem clean "Price" ;;
   i <- idxmax p ;;
   loc clean i "Company_Name")%result.

(** [clean["Fuel_Type"].mode()[0]] (line 226) *)
Definition most_common_fuel (clean : DataFrame) : result value :=
  (f <- getitem clean "Fuel_Type" ;; getitem0 (mode f))%result.

(* ===================================================================== *)
(** ** What a page shows *)

(** The seaborn call a figure is drawn with, with its keyword arguments. *)
Inductive chart : Type :=
| countplot (x y hue : option string)
| histplot (col : string) (kde : bool)
| kdeplot (col : string) (fill : bool)
| boxplot (x y : option string)
| scatterplot (x y : string)
| heatmap (m : matrix)
| pairplot (data : DataFrame)
| barplot (x y : string) (hue : option string).

(** A value handed to [st.metric] or [st.write]. *)
Inductive shown : Type :=
| SInt (z : Z)
| SFloat (x : float)
| SCell (v : value)
| SName (s : string).

(** The elements a page puts on the screen, in order.  The long static
    texts are cut down to their heading. *)
Inductive output : Type :=
| title (s : string)
| markdown (heading : string)
| header (s : string)
| subheader (s : string)
| metric (label : string) (v : shown)
| write (label : string) (v : shown)
| dataframe (df : DataFrame)
| map_ (df : DataFrame)
| pyplot (c : chart)
| info (s : string)
| warning (s : string)
| success (s : string).

(** A page script: what it has put on the screen so far, and whether it
    went on or stopped with an exception.  An exception that nothing
    catches ends the run of the page. *)
Definition Script (A : Type) : Type := (list output * result A)%type.

Definition ret {A : Type} (a : A) : Script A := ([], Ok a).

Definition emit (o : output) : Script unit := ([o], Ok tt).

(** Evaluating an expression inside a page. *)
Definition eval {A : Type} (r : result A) : Script A := ([], r).

Definition then_ {A B : Type} (m : Script A) (f : A -> Script B)
  : Script B :=
  match m with
  | (out, Raise e) => (out, Raise e)
  | (out, Ok a) => let (out', r) := f a in ((out ++ out')%list, r)
  end.

Declare Scope script_scope.
Delimit Scope script_scope with script.
Notation "x <- m ;; k" := (then_ m (fun x => k))
  (at level 61, m at next level, right associativity) : script_scope.
Notation "m ;; k" := (then_ m (fun _ => k))
  (at level 61, right associativity) : script_scope.

Definition screen {A : Type} (m : Script A) : list output := fst m.

Definition outcome {A : Type} (m : Script A) : result A := snd m.

(** What the user has set the widgets of the analysis page to. *)
Record Inputs : Type := mkInputs {
  ui_company : list value;
  ui_year : Z * Z;
  ui_col : string;
  ui_dist : string;
  ui_x : string;
  ui_y : string;
  ui_option : string
}.

Fixpoint positions (names all : list string) : result (list nat) :=
  match names with
  | [] => Ok []
  | n :: rest =>
      match index_of n all with
      | Some j => (l <- positions rest all ;; Ok (j :: l))%result
      | None => Raise (KeyError n)
      end
  end.

(** [df[names]] for a list of names: the frame of these columns, in the
    order of the list. *)
Definition getitem_list (df : DataFrame) (names : list string)
  : result DataFrame :=
  (js <- positions names (column_names df) ;;
   Ok {| columns := map (fun j => nth j (columns df) ("", object_)) js;
         rows := map (fun row => map (fun j => cell j row) js) (rows df) |}
  )%result.

Local Open Scope script_scope.

(** The column names [st.map] finds the coordinates under. *)
Definition latitude_names : list string :=
  ["lat"; "latitude"; "LAT"; "LATITUDE"].

Definition longitude_names : list string :=
  ["lon"; "longitude"; "LON"; "LONGITUDE"].

(** [st.map(data)]: the map of the points of [data], or
    [StreamlitAPIException] when [data] has no column under one of the
    latitude names or none under one of the longitude names. *)
Definition st_map (data : DataFrame) : Script unit :=
  if existsb (fun n => has_column n data) latitude_names
     && existsb (fun n => has_column n data) longitude_names
  then emit (map_ data)
  else eval (Raise StreamlitAPIException).

(* ===================================================================== *)
(** ** Introduction page (lines 26-74) *)

Definition introduction (raw clean : DataFrame) : Script unit :=
  emit (title "🚗 Cars Analytics Dashboard") ;;
  emit (markdown "🔍 Introduction") ;;
  emit (metric "🚘 Total Cars" (SInt (len clean))) ;;
  p <- eval (getitem clean "Price") ;;
  m <- eval (mean p) ;;
  emit (metric "💰 Average Price" (SFloat (py_round m 2))) ;;
  k <- eval (getitem clean "Kilometers_Driven") ;;
  m <- eval (mean k) ;;
  i <- eval (py_int m) ;;
  emit (metric "📏 Average KM" (SInt i)) ;;
  c <- eval (getitem clean "Company_Name") ;;
  emit (metric "🏭 Total Companies" (SInt (nunique c))) ;;
  emit (subheader "📄 Raw Dataset") ;;
  emit (dataframe raw) ;;
  emit (subheader "🧹 Cleaned Dataset") ;;
  emit (dataframe clean) ;;
  emit (subheader "🗺️ Location Map") ;;
  if has_column "Latitude" clean && has_column "Longitude" clean
  then
    d <- eval (getitem_list clean ["Latitude"; "Longitude"]) ;;
    st_map d
  else emit (info "ℹ️ Latitude and Longitude not available").

(* ===================================================================== *)
(** ** Analysis page (lines 78-190) *)

(** Lines 103-107: the three figures above the charts. *)
Definition kpis (df : DataFrame) : Script unit :=
  emit (metric "🚗 Selected Cars" (SInt (len df))) ;;
  p <- eval (getitem df "Price") ;;
  m <- eval (mean p) ;;
  emit (metric "💸 Average Price" (SFloat (py_round m 2))) ;;
  w <- eval (getitem df "Power_value") ;;
  m <- eval (mean w) ;;
  emit (metric "⚡ Average Power" (SFloat (py_round m 2))).

(** Lines 95-107 on their own: the filter followed by the figures. *)
Definition filtered_kpis (clean : DataFrame) (company : list value)
  (year : Z * Z) : Script unit :=
  df <- eval (filter_engine clean company year) ;;
  kpis df.

(** Lines 116-129: the chart for one column. *)
Definition univariate (df : DataFrame) (col dist : string) : Script chart :=
  if mem col (cat_cols df) then
    _ <- eval (getitem df col) ;;
    ret (countplot None (Some col) None)
  else if String.eqb dist "Histogram" then
    _ <- eval (getitem df col) ;;
    ret (histplot col true)
  else if String.eqb dist "KDE" then
    _ <- eval (getitem df col) ;;
    ret (kdeplot col true)
  else
    _ <- eval (getitem df col) ;;
    ret (boxplot (Some col) None).

Section Pages.

Variable pearson : list (Z * Z) -> Q.

(** Lines 143-154: the chart for two columns.  The correlation is written
    to the page before the figure is shown. *)
Definition bivariate (df : DataFrame) (x y : string) : Script chart :=
  if mem x (num_cols df) && mem y (num_cols df) then
    sx <- eval (getitem df x) ;;
    sy <- eval (getitem df y) ;;
    emit (write "📉 Correlation:"
            (SFloat (py_round (Series_corr pearson sx sy) 3))) ;;
    ret (scatterplot x y)
  else if mem x (num_cols df) && mem y (cat_cols df) then
    ret (boxplot (Some y) (Some x))
  else if mem x (cat_cols df) && mem y (num_cols df) then
    ret (boxplot (Some x) (Some y))
  else
    ret (countplot (Some x) None (Some y)).

(** Lines 165-190: the chart over many columns. *)
Definition multivariate (df : DataFrame) (option : string) : Script unit :=
  if String.eqb option "Heatmap" then
    d <- eval (getitem_list df (num_cols df)) ;;
    emit (pyplot (heatmap (corr pearson d)))
  else if String.eqb option "Pairplot" then
    d <- eval (getitem_list df (num_cols df)) ;;
    emit (pyplot (pairplot d))
  else if has_column "Fuel_Type" df && has_column "Price" df then
    emit (pyplot (barplot "Fuel_Type" "Price"
                    (if has_column "Transmission" df
                     then Some "Transmission" else None)))
  else
    emit (warning "⚠️ Required columns missing").

Definition analysis (clean : DataFrame) (ui : Inputs) : Script unit :=
  emit (title "📊 Exploratory Analysis Studio") ;;
  _ <- eval (company_options clean) ;;
  _ <- eval (year_range clean) ;;
  df <- eval (filter_engine clean (ui_company ui) (ui_year ui)) ;;
  kpis df ;;
  emit (header "📈 Univariate Analysis") ;;
  fig <- univariate df (ui_col ui) (ui_dist ui) ;;
  emit (pyplot fig) ;;
  emit (header "🔁 Bivariate Analysis") ;;
  fig2 <- bivariate df (ui_x ui) (ui_y ui) ;;
  emit (pyplot fig2) ;;
  emit (header "🧠 Multivariate Analysis") ;;
  multivariate df (ui_option ui).

(* =================================================================== *)
(** ** Conclusion page (lines 194-232) *)

Definition conclusions (clean : DataFrame) : Script unit :=
  emit (title "📌 Automated Insights") ;;
  emit (markdown "📊 Conclusion") ;;
  emit (write "📦 Total Records:" (SInt (len clean))) ;;
  car <- eval (highest_price_car clean) ;;
  emit (write "🏆 Highest Price Car:" (SCell car)) ;;
  fuel <- eval (most_common_fuel clean) ;;
  emit (write "⛽ Most Common Fuel:" (SCell fuel)) ;;
  name <- eval (strongest_correlation pearson clean) ;;
  emit (write "📈 Strongest Correlation with Price:" (SName name)) ;;
  emit (success "🎉 Thanks for visiting this Cars EDA Project 🚗").

(** Lines 21-26, 78, 194: one page per run. *)
Definition app (raw clean : DataFrame) (page : string) (ui : Inputs)
  : Script unit :=
  if String.eqb page "🚘 Introduction" then introduction raw clean
  else if String.eqb page "📊 Analysis" then analysis clean ui
  else conclusions clean.

End Pages.

Local Close Scope script_scope.

(* ===================================================================== *)
(** ** The specification's readings *)

(** [keeps P l l']: [l'] holds exactly the elements of [l] that satisfy
    [P], each as often as [l] has it and in the order of [l]. *)
Inductive keeps {A : Type} (P : A -> Prop) : list A -> list A -> Prop :=
| keeps_nil : keeps P [] []
| keeps_yes : forall a l l',
    P a -> keeps P l l' -> keeps P (a :: l) (a :: l')
| keeps_no : forall a l l',
    ~ P a -> keeps P l l' -> keeps P (a :: l) l'.

(** A year lies within the closed interval when the cell holds a number
    between its ends (a boolean counts as 0 or 1).  A missing year lies
    within no interval. *)
Inductive year_within (lower upper : Z) : value -> Prop :=
| within_number : forall z,
    lower <= z <= upper -> year_within lower upper (VNum z)
| within_boolean : forall b : bool,
    lower <= (if b then 1 else 0) <= upper ->
    year_within lower upper (VBool b).

(** The row is the car of one of the chosen companies, of a year within
    the interval. *)
Definition row_passes (jc jy : nat) (company : list value)
  (lower upper : Z) (row : list value) : Prop :=
  In (cell jc row) company /\ year_within lower upper (cell jy row).

(** The two tests of the mask on one row, used to reason about the
    filter. *)
Definition selected (jc jy : nat) (company : list value) (year : Z * Z)
  (row : list value) : bool :=
  existsb (value_eqb (cell jc row)) company
  && in_interval (fst year) (snd year) (cell jy row).

(** The number in a cell, when it holds one; a boolean counts as 0 or 1. *)
Definition as_number (v : value) : option Z :=
  match v with
  | VNum z => Some z
  | VBool true => Some 1
  | VBool false => Some 0
  | VNaN => None
  | VStr _ => None
  end.

(** The paired observations of two columns: for every row that holds a
    number in both, in table order, the two numbers. *)
Fixpoint observations (jx jy : nat) (table : list (list value))
  : list (Z * Z) :=
  match table with
  | [] => []
  | row :: rest =>
      match as_number (cell jx row), as_number (cell jy row) with
      | Some a, Some b => (a, b) :: observations jx jy rest
      | _, _ => observations jx jy rest
      end
  end.









(** Position [k] holds the greatest number [m] of a series and no earlier
    position holds a number as large. *)
Definition first_max (s : Series) (k : nat) (m : Z) : Prop :=
  (exists v, nth_error s k = Some v /\ num_of v = Some m)
  /\ forall j v z,
       nth_error s j = Some v -> num_of v = Some z ->
       z <= m /\ ((j < k)%nat -> z < m).

(** The most frequent value with ties going to the value met first in the
    column. *)
Definition most_frequent_first (s : Series) : option value :=
  let vals := dropna s in
  let top := fold_right Nat.max O (map (fun v => count v vals) vals) in
  find (fun v => Nat.eqb (count v vals) top) vals.

(** An explicit "undefined" indicator on the screen: anything that is
    neither a number nor a missing-value marker. *)
Definition explicit_undefined (v : shown) : bool :=
  match v with
  | SInt _ | SFloat _ => false
  | SCell (VNum _) | SCell VNaN | SCell (VBool _) => false
  | SCell (VStr _) | SName _ => true
  end.

(** The screen values of the metrics on a page. *)
Definition metric_values (page : list output) : list shown :=
  flat_map (fun o => match o with
                     | metric _ v => [v]
                     | _ => []
                     end) page.

(** What the scan of [idxmax] knows after a prefix of the series. *)
Definition scanned (pre : Series) (best : option (nat * Z)) : Prop :=
  match best with
  | None => forall v, In v pre -> num_of v = None
  | Some (k, m) => first_max pre k m
  end.

(* ===================================================================== *)
(** ** Example frames *)

(** A small cleaned table in the shape the script expects, with one
    boolean column added. *)
Definition cars : DataFrame :=
  {| columns := [("Company_Name", object_); ("Year", int64);
                 ("Price", float64); ("Power_value", float64);
                 ("Fuel_Type", object_); ("Is_Automatic", bool_)];
     rows := [[VStr "Maruti"; VNum 2015; VNum 5; VNum 80;
               VStr "Petrol"; VBool false];
              [VStr "Honda"; VNum 2018; VNum 9; VNum 100;
               VStr "Diesel"; VBool true];
              [VStr "Maruti"; VNum 2012; VNum 9; VNum 70;
               VStr "Diesel"; VBool false];
              [VStr "BMW"; VNum 2018; VNum 3; VNum 150;
               VStr "Petrol"; VBool true]] |}.

(** A table in which one year is missing. *)
Definition cars_missing_year : DataFrame :=
  {| columns := [("Company_Name", object_); ("Year", float64);
                 ("Price", float64)];
     rows := [[VStr "Maruti"; VNum 2015; VNum 5];
              [VStr "Honda"; VNaN; VNum 9];
              [VStr "BMW"; VNum 2018; VNum 3]] |}.

(** A frame with a boolean column next to a numeric one. *)
Definition flagged_frame : DataFrame :=
  {| columns := [("Price", float64); ("Is_Automatic", bool_)];
     rows := [[VNum 5; VBool true]] |}.

(** A frame without rows whose columns are numeric, text and boolean. *)
Definition typed_frame_without_rows : DataFrame :=
  {| columns := [("Year", int64); ("Fuel_Type", object_);
                 ("Is_Automatic", bool_)];
     rows := [] |}.

(** A cleaned table in which every car has the same price. *)
Definition flat_price_cars : DataFrame :=
  {| columns := [("Company_Name", object_); ("Year", int64);
                 ("Price", float64)];
     rows := [[VStr "Maruti"; VNum 2015; VNum 5];
              [VStr "Honda"; VNum 2018; VNum 5]] |}.

(** A cleaned table without the Price column. *)
Definition cars_without_price : DataFrame :=
  {| columns := [("Company_Name", object_); ("Year", int64);
                 ("Kilometers_Driven", int64); ("Fuel_Type", object_)];
     rows := [[VStr "Maruti"; VNum 2015; VNum 40000; VStr "Petrol"];
              [VStr "Honda"; VNum 2018; VNum 25000; VStr "Diesel"]] |}.

(** The columns of a cleaned table, without any row. *)
Definition cars_header_only : DataFrame :=
  {| columns := [("Company_Name", object_); ("Year", int64);
                 ("Price", float64); ("Kilometers_Driven", int64);
                 ("Power_value", float64); ("Fuel_Type", object_)];
     rows := [] |}.

(** A table in which some prices are missing. *)
Definition cars_with_gaps : DataFrame :=
  {| columns := [("Company_Name", object_); ("Price", float64)];
     rows := [[VStr "Maruti"; VNaN];
              [VStr "Honda"; VNum 7];
              [VStr "BMW"; VNaN];
              [VStr "Audi"; VNum 7];
              [VStr "Tata"; VNum 2]] |}.

(** A complete cleaned table with coordinates. *)
Definition located_cars : DataFrame :=
  {| columns := [("Company_Name", object_); ("Year", int64);
                 ("Price", float64); ("Kilometers_Driven", int64);
                 ("Latitude", float64); ("Longitude", float64)];
     rows := [[VStr "Maruti"; VNum 2015; VNum 5; VNum 40000;
               VNum 19; VNum 72];
              [VStr "Honda"; VNum 2018; VNum 9; VNum 25000;
               VNum 28; VNum 77]] |}.



(** A stand-in for the coefficient routine on the example frames: 1 when
    the two columns agree row by row, one half otherwise. *)
Definition agree_or_half (observations : list (Z * Z)) : Q :=
  if forallb (fun ab => fst ab =? snd ab) observations then 1%Q
  else (1 # 2)%Q.

(** A setting of the widgets of the analysis page. *)
Definition sample_inputs : Inputs :=
  {| ui_company := [VStr "Maruti"; VStr "Honda"];
     ui_year := (2013, 2018);
     ui_col := "Fuel_Type";
     ui_dist := "Histogram";
     ui_x := "Year";
     ui_y := "Price";
     ui_option := "Grouped Bar" |}.

(* ===================================================================== *)
(** * Properties *)

Local Open Scope list_scope.

(** Distinctness of the column names of a concrete frame. *)
Ltac distinct_names :=
  repeat constructor; simpl; intuition discriminate.

(** ** Lists and names *)

Lemma mem_In (x : string) (l : list string) : mem x l = true <-> In x l.
Proof.
  unfold mem. rewrite existsb_exists. split.
  - intros [y [Hy E]]. apply String.eqb_eq in E. now subst.
  - intro H. exists x. split; [assumption | apply String.eqb_refl].
Qed.

Lemma mem_not_In (x : string) (l : list string) :
  mem x l = false <-> ~ In x l.
Proof.
  rewrite <- mem_In. destruct (mem x l); split; congruence.
Qed.

Lemma has_column_In (name : string) (df : DataFrame) :
  has_column name df = true <-> In name (column_names df).
Proof. apply mem_In. Qed.

Lemma sublist_filter {A : Type} (f : A -> bool) (l : list A) :
  sublist (filter f l) l.
Proof.
  induction l as [|a l IH]; simpl.
  - constructor.
  - destruct (f a); now constructor.
Qed.

Lemma sublist_map {A B : Type} (g : A -> B) (l1 l2 : list A) :
  sublist l1 l2 -> sublist (map g l1) (map g l2).
Proof. induction 1; simpl; now constructor. Qed.

Lemma names_of_selection (include : dtype -> bool) (df : DataFrame) :
  column_names (select_dtypes include df)
  = map fst (filter (fun c => include (snd c)) (columns df)).
Proof. reflexivity. Qed.

Lemma In_selection (include : dtype -> bool) (df : DataFrame) (c : string) :
  In c (column_names (select_dtypes include df))
  <-> exists d, In (c, d) (columns df) /\ include d = true.
Proof.
  rewrite names_of_selection, in_map_iff. split.
  - intros [[c' d] [E H]]. simpl in E. subst c'.
    apply filter_In in H. now exists d.
  - intros [d [H E]]. exists (c, d). split; [reflexivity|].
    apply filter_In. now split.
Qed.

(** With distinct column names a name has one dtype. *)
Lemma dtype_unique (cols : list (string * dtype)) (c : string)
  (d1 d2 : dtype) :
  NoDup (map fst cols) -> In (c, d1) cols -> In (c, d2) cols -> d1 = d2.
Proof.
  induction cols as [|[n d] cols IH]; simpl; intros ND H1 H2; [easy|].
  inversion ND as [|? ? Hn ND']; subst.
  destruct H1 as [H1|H1], H2 as [H2|H2].
  - congruence.
  - inversion H1; subst. exfalso. apply Hn.
    change c with (fst (c, d2)). now apply in_map.
  - inversion H2; subst. exfalso. apply Hn.
    change c with (fst (c, d1)). now apply in_map.
  - now apply IH.
Qed.

Lemma num_cat_disjoint (df : DataFrame) (c : string) :
  NoDup (column_names df) -> In c (num_cols df) -> ~ In c (cat_cols df).
Proof.
  unfold num_cols, cat_cols. intros ND Hn Hc.
  apply In_selection in Hn. apply In_selection in Hc.
  destruct Hn as [d1 [H1 E1]], Hc as [d2 [H2 E2]].
  assert (d1 = d2) by (eapply dtype_unique; eassumption).
  subst. now destruct d2.
Qed.

Lemma index_of_Some (name : string) (names : list string) :
  In name names -> exists j, index_of name names = Some j.
Proof.
  induction names as [|n names IH]; simpl; [easy|].
  intros [E|H].
  - subst. rewrite String.eqb_refl. now exists O.
  - destruct (String.eqb name n); [now exists O|].
    destruct (IH H) as [j Hj]. rewrite Hj. now exists (S j).
Qed.

Lemma index_of_None (name : string) (names : list string) :
  ~ In name names -> index_of name names = None.
Proof.
  induction names as [|n names IH]; simpl; [easy|].
  intro H. destruct (String.eqb_spec name n) as [E|E].
  - exfalso. apply H. now left.
  - rewrite IH; [reflexivity|]. intro. apply H. now right.
Qed.

Lemma getitem_present (df : DataFrame) (name : string) :
  In name (column_names df) -> exists s, getitem df name = Ok s.
Proof.
  intro H. unfold getitem.
  destruct (index_of_Some _ _ H) as [j Hj]. rewrite Hj. now eexists.
Qed.

Lemma getitem_absent (df : DataFrame) (name : string) :
  ~ In name (column_names df) -> getitem df name = Raise (KeyError name).
Proof.
  intro H. unfold getitem. now rewrite index_of_None.
Qed.

Lemma selection_names_sublist (include : dtype -> bool) (df : DataFrame) :
  sublist (column_names (select_dtypes include df)) (column_names df).
Proof.
  rewrite names_of_selection. apply sublist_map, sublist_filter.
Qed.

Lemma sublist_In {A : Type} (l1 l2 : list A) (x : A) :
  sublist l1 l2 -> In x l1 -> In x l2.
Proof.
  induction 1; simpl; intros; intuition.
Qed.

(* ===================================================================== *)
(** ** Column Classifier *)

(** C2, as stated, fails: in [flagged_frame] the boolean column
    [Is_Automatic] is a column of the table and is in neither list, so the
    union of the two lists is not the set of all columns. *)
Lemma classifier_union_misses_bool :
  In "Is_Automatic" (column_names flagged_frame)
  /\ ~ In "Is_Automatic" (num_cols flagged_frame ++ cat_cols flagged_frame).
Proof.
  split.
  - simpl. auto.
  - simpl. intros [H|[]]. discriminate H.
Qed.

(** C2, amended: for every table with distinct column names (an empty
    table included) the numeric and the categorical list both keep the
    column order; the numeric list holds exactly the columns of an integer
    or floating dtype and the categorical list exactly the columns of the
    object dtype; no name is in both; and a column of any other dtype, a
    boolean or a datetime column, is in neither list, so the two lists
    together need not hold all columns. *)
Theorem classifier_lists (df : DataFrame) :
  NoDup (column_names df) ->
  sublist (num_cols df) (column_names df)
  /\ sublist (cat_cols df) (column_names df)
  /\ (forall c, In c (num_cols df)
                <-> In (c, int64) (columns df)
                    \/ In (c, float64) (columns df))
  /\ (forall c, In c (cat_cols df) <-> In (c, object_) (columns df))
  /\ (forall c, ~ (In c (num_cols df) /\ In c (cat_cols df)))
  /\ (forall c, In (c, bool_) (columns df)
                \/ In (c, datetime64) (columns df) ->
                ~ In c (num_cols df) /\ ~ In c (cat_cols df)).
Proof.
  intro ND.
  assert (Hnum : forall c, In c (num_cols df)
                           <-> In (c, int64) (columns df)
                               \/ In (c, float64) (columns df)).
  { intro c. unfold num_cols. rewrite In_selection. split.
    - intros [d [H E]]. destruct d; try discriminate; auto.
    - intros [H|H]; eexists; (split; [exact H | reflexivity]). }
  assert (Hcat : forall c, In c (cat_cols df)
                           <-> In (c, object_) (columns df)).
  { intro c. unfold cat_cols. rewrite In_selection. split.
    - intros [d [H E]]. destruct d; try discriminate; auto.
    - intro H. eexists. split; [exact H | reflexivity]. }
  split; [apply selection_names_sublist|].
  split; [apply selection_names_sublist|].
  split; [exact Hnum|]. split; [exact Hcat|]. split.
  - intros c [Hn Hc]. now apply (num_cat_disjoint df c).
  - intros c Hother. rewrite Hnum, Hcat. split.
    + intros [H|H]; destruct Hother as [H'|H'];
        pose proof (dtype_unique _ _ _ _ ND H H'); discriminate.
    + intro H; destruct Hother as [H'|H'];
        pose proof (dtype_unique _ _ _ _ ND H H'); discriminate.
Qed.

(** The amended C2 on [typed_frame_without_rows]. *)
Lemma classifier_lists_witness :
  NoDup (column_names typed_frame_without_rows)
  /\ num_cols typed_frame_without_rows = ["Year"]
  /\ cat_cols typed_frame_without_rows = ["Fuel_Type"]
  /\ (In "Year" (num_cols typed_frame_without_rows)
      <-> In ("Year", int64) (columns typed_frame_without_rows)
          \/ In ("Year", float64) (columns typed_frame_without_rows))
  /\ ~ In "Is_Automatic" (num_cols typed_frame_without_rows)
  /\ ~ In "Is_Automatic" (cat_cols typed_frame_without_rows).
Proof.
  assert (ND : NoDup (column_names typed_frame_without_rows)).
  { distinct_names. }
  destruct (classifier_lists _ ND) as [_ [_ [Hnum [_ [_ Hother]]]]].
  split; [exact ND|]. split; [reflexivity|]. split; [reflexivity|].
  split; [exact (Hnum "Year")|].
  apply (Hother "Is_Automatic"). left. simpl. auto.
Defined.

(* ===================================================================== *)
(** ** Chart Selector *)







Lemma then_eval_ok {A B : Type} (a : A) (f : A -> Script B) :
  then_ (eval (Ok a)) f = f a.
Proof.
  unfold then_, eval. destruct (f a) as [out r]. reflexivity.
Qed.

Section ChartSelector.

Variable pearson : list (Z * Z) -> Q.


(** C10: in a table with distinct column names, a column whose dtype is
    neither numeric nor object is in neither classifier list; the
    univariate selector gives it the numeric charts (histogram, density
    curve or box plot, by the toggle), and the bivariate selector gives
    the count plot with hue whatever the other column is, on either
    axis. *)
Theorem other_dtype_routing (df : DataFrame) (c : string) (d : dtype) :
  NoDup (column_names df) ->
  In (c, d) (columns df) ->
  np_number d = false ->
  is_object d = false ->
  ~ In c (num_cols df)
  /\ ~ In c (cat_cols df)
  /\ (forall dist,
        univariate df c dist
        = ret (if String.eqb dist "Histogram" then histplot c true
               else if String.eqb dist "KDE" then kdeplot c true
               else boxplot (Some c) None))
  /\ (forall other,
        bivariate pearson df c other
        = ret (countplot (Some c) None (Some other))
        /\ bivariate pearson df other c
           = ret (countplot (Some other) None (Some c))).
Proof.
  intros ND Hc Hn Ho.
  assert (Nn : ~ In c (num_cols df)).
  { unfold num_cols. rewrite In_selection. intros [d' [H E]].
    assert (d = d') by (eapply dtype_unique; eassumption). congruence. }
  assert (Nc : ~ In c (cat_cols df)).
  { unfold cat_cols. rewrite In_selection. intros [d' [H E]].
    assert (d = d') by (eapply dtype_unique; eassumption). congruence. }
  apply mem_not_In in Nn as Mn. apply mem_not_In in Nc as Mc.
  split; [exact Nn|]. split; [exact Nc|]. split.
  - intro dist. destruct (getitem_present df c) as [s Es].
    { unfold column_names. change c with (fst (c, d)). now apply in_map. }
    unfold univariate. rewrite Mc, Es.
    destruct (String.eqb dist "Histogram"); [reflexivity|].
    destruct (String.eqb dist "KDE"); reflexivity.
  - intro other. split.
    + unfold bivariate. rewrite Mn, Mc. reflexivity.
    + unfold bivariate. rewrite Mn, Mc. rewrite !andb_false_r.
      reflexivity.
Qed.

End ChartSelector.

(* ===================================================================== *)
(** ** Filter Engine *)

Lemma value_eqb_eq (a b : value) : value_eqb a b = true <-> a = b.
Proof.
  destruct a, b; simpl; split; intro H; try discriminate; try reflexivity.
  - apply Z.eqb_eq in H. now subst.
  - inversion H. apply Z.eqb_refl.
  - apply String.eqb_eq in H. now subst.
  - inversion H. apply String.eqb_refl.
  - apply Bool.eqb_prop in H. now subst.
  - inversion H. apply Bool.eqb_reflx.
Qed.

Lemma value_eqb_refl (a : value) : value_eqb a a = true.
Proof. now apply value_eqb_eq. Qed.

Lemma isin_In (v : value) (values : list value) :
  existsb (value_eqb v) values = true <-> In v values.
Proof.
  rewrite existsb_exists. split.
  - intros [w [H E]]. apply value_eqb_eq in E. now subst.
  - intro H. exists v. split; [assumption | apply value_eqb_refl].
Qed.

Lemma unique_In (v : value) (s : Series) : In v (unique s) <-> In v s.
Proof.
  induction s as [|a s IH]; simpl; [tauto|].
  rewrite filter_In, IH. split.
  - intros [E|[H _]]; auto.
  - intros [E|H]; auto.
    destruct (value_eqb v a) eqn:E.
    + apply value_eqb_eq in E. auto.
    + right. now split.
Qed.

Lemma mask_selects {A : Type} (f : A -> bool) (l : list A) :
  map snd (filter fst (combine (map f l) l)) = filter f l.
Proof.
  induction l as [|a l IH]; simpl; [reflexivity|].
  destruct (f a); simpl; now rewrite IH.
Qed.

Lemma mask_and_map {A : Type} (f g : A -> bool) (l : list A) :
  mask_and (map f l) (map g l) = map (fun a => f a && g a) l.
Proof.
  unfold mask_and. induction l as [|a l IH]; simpl; [reflexivity|].
  now rewrite IH.
Qed.

Lemma filter_none {A : Type} (f : A -> bool) (l : list A) :
  (forall a, In a l -> f a = false) -> filter f l = [].
Proof.
  induction l as [|a l IH]; simpl; intro H; [reflexivity|].
  rewrite (H a) by now left. apply IH. intros. apply H. now right.
Qed.

Lemma filter_all {A : Type} (f : A -> bool) (l : list A) :
  (forall a, In a l -> f a = true) -> filter f l = l.
Proof.
  induction l as [|a l IH]; simpl; intro H; [reflexivity|].
  rewrite (H a) by now left. f_equal. apply IH. intros. apply H. now right.
Qed.

Lemma fold_min_le (l : list Z) (a : Z) :
  fold_left Z.min l a <= a
  /\ forall z, In z l -> fold_left Z.min l a <= z.
Proof.
  revert a. induction l as [|b l IH]; simpl; intro a.
  - split; [lia | easy].
  - destruct (IH (Z.min a b)) as [H1 H2]. split; [lia|].
    intros z [E|H]; [subst; lia | now apply H2].
Qed.

Lemma fold_max_ge (l : list Z) (a : Z) :
  a <= fold_left Z.max l a
  /\ forall z, In z l -> z <= fold_left Z.max l a.
Proof.
  revert a. induction l as [|b l IH]; simpl; intro a.
  - split; [lia | easy].
  - destruct (IH (Z.max a b)) as [H1 H2]. split; [lia|].
    intros z [E|H]; [subst; lia | now apply H2].
Qed.

Lemma nums_In (s : Series) (v : value) (z : Z) :
  In v s -> num_of v = Some z -> In z (nums s).
Proof.
  intros H E. unfold nums. apply in_flat_map. exists v.
  split; [assumption|]. rewrite E. now left.
Qed.

(** The filter as one pass over the rows. *)
Lemma filter_engine_rows (clean : DataFrame) (jc jy : nat)
  (company : list value) (year : Z * Z) :
  index_of "Company_Name" (column_names clean) = Some jc ->
  index_of "Year" (column_names clean) = Some jy ->
  existsb is_str (column_at jy clean) = false ->
  filter_engine clean company year
  = Ok {| columns := columns clean;
          rows := filter (selected jc jy company year) (rows clean) |}.
Proof.
  intros Hc Hy Ht. unfold filter_engine, getitem. rewrite Hc, Hy. simpl.
  unfold between. rewrite Ht. simpl. unfold boolean_index. do 2 f_equal.
  unfold isin, column_at. rewrite !map_map, mask_and_map.
  apply mask_selects.
Qed.

(** A filter that returns at all has found both columns, met no text among
    the years, and is the one pass over the rows. *)
Lemma filter_engine_inv (clean : DataFrame) (company : list value)
  (year : Z * Z) (df : DataFrame) :
  filter_engine clean company year = Ok df ->
  exists jc jy,
    index_of "Company_Name" (column_names clean) = Some jc
    /\ index_of "Year" (column_names clean) = Some jy
    /\ existsb is_str (column_at jy clean) = false
    /\ df = {| columns := columns clean;
               rows := filter (selected jc jy company year) (rows clean) |}.
Proof.
  intro H.
  destruct (index_of "Company_Name" (column_names clean)) as [jc|] eqn:Hc.
  2: { unfold filter_engine, getitem in H. rewrite Hc in H. discriminate. }
  destruct (index_of "Year" (column_names clean)) as [jy|] eqn:Hy.
  2: { unfold filter_engine, getitem in H. rewrite Hc, Hy in H.
       discriminate. }
  destruct (existsb is_str (column_at jy clean)) eqn:Ht.
  { unfold filter_engine, getitem, between in H.
    rewrite Hc, Hy in H. simpl in H. rewrite Ht in H. discriminate. }
  rewrite (filter_engine_rows clean jc jy company year Hc Hy Ht) in H.
  exists jc, jy. split; [reflexivity|]. split; [reflexivity|].
  split; [exact Ht|]. now inversion H.
Qed.

Lemma text_free_column (clean : DataFrame) (j : nat) :
  (forall row t, In row (rows clean) -> cell j row <> VStr t) ->
  existsb is_str (column_at j clean) = false.
Proof.
  intro H. destruct (existsb is_str (column_at j clean)) eqn:E;
    [|reflexivity].
  apply existsb_exists in E as [v [Hv Es]].
  unfold column_at in Hv. apply in_map_iff in Hv as [row [Er Hr]].
  destruct v; try discriminate. exfalso. now apply (H row s).
Qed.

Lemma selected_iff (jc jy : nat) (company : list value) (year : Z * Z)
  (row : list value) :
  selected jc jy company year row = true
  <-> In (cell jc row) company
      /\ exists z, num_of (cell jy row) = Some z
                   /\ fst year <= z <= snd year.
Proof.
  unfold selected, in_interval. rewrite andb_true_iff, isin_In.
  destruct (num_of (cell jy row)) as [z|].
  - rewrite andb_true_iff, !Z.leb_le. split.
    + intros [H1 H2]. split; [assumption|]. now exists z.
    + intros [H1 [z' [E H2]]]. inversion E; subst. now split.
  - split.
    + intros [_ H]. discriminate.
    + intros [_ [z [E _]]]. discriminate.
Qed.

Lemma year_within_iff (lo hi : Z) (v : value) :
  year_within lo hi v
  <-> (forall t, v <> VStr t) /\ exists z, num_of v = Some z /\ lo <= z <= hi.
Proof.
  split.
  - intros [z H|b H]; (split; [discriminate|]); eexists;
      (split; [reflexivity | exact H]).
  - intros [Ht [z [E H]]]. destruct v; simpl in E; try discriminate.
    + inversion E; subst. now constructor.
    + inversion E; subst. now constructor.
Qed.

Lemma selected_passes (jc jy : nat) (company : list value) (lo hi : Z)
  (row : list value) :
  (forall t, cell jy row <> VStr t) ->
  selected jc jy company (lo, hi) row = true
  <-> row_passes jc jy company lo hi row.
Proof.
  intro Ht. unfold row_passes. rewrite selected_iff, year_within_iff. simpl.
  tauto.
Qed.

Lemma keeps_filter {A : Type} (P : A -> Prop) (f : A -> bool)
  (l : list A) :
  (forall a, In a l -> (f a = true <-> P a)) -> keeps P l (filter f l).
Proof.
  induction l as [|a l IH]; intro H; simpl; [constructor|].
  assert (IH' : keeps P l (filter f l)).
  { apply IH. intros b Hb. apply H. now right. }
  destruct (f a) eqn:E.
  - apply keeps_yes; [|assumption]. now apply (H a (or_introl eq_refl)).
  - apply keeps_no; [|assumption]. intro Pa.
    apply (H a (or_introl eq_refl)) in Pa. congruence.
Qed.

(** C1, as stated, fails: in [cars_missing_year] the multiselect offers the
    three companies and the slider runs from 2015 to 2018, the least and
    the greatest year, yet the filter with all of these drops the car
    whose year is missing: the subset is not the whole table. *)
Lemma identity_filter_drops_missing_year :
  company_options cars_missing_year
  = Ok [VStr "Maruti"; VStr "Honda"; VStr "BMW"]
  /\ year_range cars_missing_year = Ok (2015, 2018)
  /\ filter_engine cars_missing_year
       [VStr "Maruti"; VStr "Honda"; VStr "BMW"] (2015, 2018)
     = Ok {| columns := columns cars_missing_year;
             rows := [[VStr "Maruti"; VNum 2015; VNum 5];
                      [VStr "BMW"; VNum 2018; VNum 3]] |}
  /\ filter_engine cars_missing_year
       [VStr "Maruti"; VStr "Honda"; VStr "BMW"] (2015, 2018)
     <> Ok cars_missing_year.
Proof.
  repeat split; try reflexivity. discriminate.
Qed.

(** C1, amended: on a table that has the Company_Name column and a Year
    column without text, the filter returns the table's columns with
    exactly the rows whose company is one of the chosen values and whose
    year is present and lies in the closed interval, in table order.  No
    chosen company gives no rows, and so does an interval whose lower end
    is above its upper end, both without an exception.  Choosing every
    company of the table together with an interval that contains every
    year of the table (from the least to the greatest year, say) gives
    exactly the rows whose year is not missing: the whole table when no
    year is missing. *)
Theorem filter_engine_correct (clean : DataFrame) (jc jy : nat) :
  index_of "Company_Name" (column_names clean) = Some jc ->
  index_of "Year" (column_names clean) = Some jy ->
  (forall row t, In row (rows clean) -> cell jy row <> VStr t) ->
  (forall company lo hi,
      exists df,
        filter_engine clean company (lo, hi) = Ok df
        /\ columns df = columns clean
        /\ keeps (row_passes jc jy company lo hi) (rows clean) (rows df))
  /\ (forall lo hi,
        filter_engine clean [] (lo, hi)
        = Ok {| columns := columns clean; rows := [] |})
  /\ (forall company lo hi,
        hi < lo ->
        filter_engine clean company (lo, hi)
        = Ok {| columns := columns clean; rows := [] |})
  /\ (forall company lo hi,
        (forall row, In row (rows clean) -> In (cell jc row) company) ->
        (forall row, In row (rows clean) ->
                     cell jy row = VNaN
                     \/ year_within lo hi (cell jy row)) ->
        exists df,
          filter_engine clean company (lo, hi) = Ok df
          /\ columns df = columns clean
          /\ keeps (fun row => cell jy row <> VNaN) (rows clean) (rows df)
          /\ ((forall row, In row (rows clean) -> cell jy row <> VNaN) ->
              df = clean)).
Proof.
  intros Hc Hy Htext.
  pose proof (text_free_column clean jy Htext) as Ht.
  split; [|split; [|split]].
  - intros company lo hi. eexists.
    split; [now apply (filter_engine_rows clean jc jy)|].
    split; [reflexivity|]. simpl.
    apply keeps_filter. intros row Hrow.
    apply selected_passes. intro t. now apply Htext.
  - intros lo hi. rewrite (filter_engine_rows _ jc jy) by assumption.
    do 2 f_equal. apply filter_none. reflexivity.
  - intros company lo hi Hlt.
    rewrite (filter_engine_rows _ jc jy) by assumption.
    do 2 f_equal. apply filter_none. intros row Hrow.
    destruct (selected jc jy company (lo, hi) row) eqn:E; [|reflexivity].
    apply selected_iff in E as [_ [z [_ Hz]]]. simpl in Hz. lia.
  - intros company lo hi Hfull Hcover. eexists.
    split; [now apply (filter_engine_rows clean jc jy)|].
    split; [reflexivity|]. simpl. split.
    + apply keeps_filter. intros row Hrow.
      rewrite selected_passes by (intro t; now apply Htext).
      unfold row_passes. split.
      * intros [_ Hw] E. rewrite E in Hw. inversion Hw.
      * intro Hna. split; [now apply Hfull|].
        destruct (Hcover row Hrow) as [E|Hw]; [contradiction | exact Hw].
    + intro Hnone. destruct clean as [cols rws]. simpl in *. f_equal.
      apply filter_all. intros row Hrow.
      apply selected_passes; [intro t; now apply Htext|].
      split; [now apply Hfull|].
      destruct (Hcover row Hrow) as [E|Hw]; [|exact Hw].
      exfalso. now apply (Hnone row).
Qed.


(* ===================================================================== *)
(** ** Summary Reporter: the row of the highest price *)

Lemma nth_error_snoc_inv {A : Type} (l : list A) (a b : A) (j : nat) :
  nth_error (l ++ [a]) j = Some b ->
  ((j < length l)%nat /\ nth_error l j = Some b)
  \/ (j = length l /\ b = a).
Proof.
  intro H. destruct (Nat.lt_ge_cases j (length l)) as [Hlt|Hge].
  - left. split; [assumption|]. now rewrite nth_error_app1 in H.
  - right. rewrite nth_error_app2 in H by assumption.
    destruct (j - length l)%nat as [|n] eqn:E; simpl in H.
    + inversion H. split; [lia | reflexivity].
    + destruct n; discriminate.
Qed.

Lemma first_max_lt (s : Series) (k : nat) (m : Z) :
  first_max s k m -> (k < length s)%nat.
Proof.
  intros [[v [H _]] _]. apply nth_error_Some. congruence.
Qed.

Lemma scanned_step (pre : Series) (v : value) (best : option (nat * Z)) :
  scanned pre best ->
  scanned (pre ++ [v])
    match num_of v, best with
    | Some z, Some (_, b) =>
        if b <? z then Some (length pre, z) else best
    | Some z, None => Some (length pre, z)
    | None, _ => best
    end.
Proof.
  intro Inv. destruct (num_of v) as [z|] eqn:Ev.
  - destruct best as [[k m]|].
    + simpl in Inv. pose proof (first_max_lt _ _ _ Inv) as Hk.
      destruct Inv as [[v0 [Hv0 Ev0]] Hall].
      destruct (Z.ltb_spec m z) as [Hlt|Hge]; simpl; split.
      * exists v. split; [|assumption].
        rewrite nth_error_app2, Nat.sub_diag by lia. reflexivity.
      * intros j w z' Hj Ew.
        apply nth_error_snoc_inv in Hj as [[Hj Hn]|[Hj Ew']].
        -- destruct (Hall j w z' Hn Ew) as [H1 _]. split; lia.
        -- subst. split; [|lia]. assert (z' = z) by congruence. lia.
      * exists v0. split; [|assumption].
        rewrite nth_error_app1 by assumption. assumption.
      * intros j w z' Hj Ew.
        apply nth_error_snoc_inv in Hj as [[Hj Hn]|[Hj Ew']].
        -- now apply (Hall j w z').
        -- subst. assert (z' = z) by congruence. split; lia.
    + simpl in *. split.
      * exists v. split; [|assumption].
        rewrite nth_error_app2, Nat.sub_diag by lia. reflexivity.
      * intros j w z' Hj Ew.
        apply nth_error_snoc_inv in Hj as [[Hj Hn]|[Hj Ew']].
        -- apply nth_error_In in Hn. rewrite (Inv w Hn) in Ew. discriminate.
        -- subst. assert (z' = z) by congruence. split; lia.
  - destruct best as [[k m]|]; simpl in *.
    + pose proof (first_max_lt _ _ _ Inv) as Hk.
      destruct Inv as [[v0 [Hv0 Ev0]] Hall]. split.
      * exists v0. split; [|assumption].
        rewrite nth_error_app1 by assumption. assumption.
      * intros j w z' Hj Ew.
        apply nth_error_snoc_inv in Hj as [[Hj Hn]|[Hj Ew']].
        -- now apply (Hall j w z').
        -- subst. congruence.
    + intros w Hw. apply in_app_or in Hw as [Hw|[Hw|[]]].
      * now apply Inv.
      * now subst.
Qed.

Lemma idxmax_from_scanned (s pre : Series) (best : option (nat * Z)) :
  scanned pre best ->
  scanned (pre ++ s) (idxmax_from s (length pre) best).
Proof.
  revert pre best. induction s as [|v s IH]; intros pre best Inv; simpl.
  - now rewrite app_nil_r.
  - pose proof (scanned_step pre v best Inv) as Step.
    replace (pre ++ v :: s)%list with ((pre ++ [v]) ++ s)%list
      by (rewrite <- app_assoc; reflexivity).
    assert (L : S (length pre) = length (pre ++ [v])).
    { rewrite length_app. simpl. lia. }
    destruct (num_of v) as [z|].
    + destruct best as [[k m]|].
      * destruct (m <? z); rewrite L; now apply IH.
      * rewrite L. now apply IH.
    + rewrite L. now apply IH.
Qed.

(** [idxmax] on a series without text that holds at least one number
    returns the first position of the greatest number. *)
Lemma idxmax_first_max (s : Series) :
  existsb is_str s = false ->
  (exists v z, In v s /\ num_of v = Some z) ->
  exists k m, idxmax s = Ok k /\ first_max s k m.
Proof.
  intros Ht [v [z [Hv Ez]]]. unfold idxmax. rewrite Ht.
  pose proof (idxmax_from_scanned s [] None) as H. simpl in H.
  specialize (H (fun _ F => match F with end)).
  destruct (idxmax_from s 0 None) as [[k m]|]; simpl in H.
  - now exists k, m.
  - rewrite (H v Hv) in Ez. discriminate.
Qed.


(* ===================================================================== *)
(** ** Summary Reporter: the most frequent value *)

Lemma string_leb_iff (s t : string) :
  String.leb s t = true <-> s = t \/ String_as_OT.lt s t.
Proof.
  unfold String.leb.
  pose proof (String_as_OT.cmp_eq s t) as He.
  pose proof (String_as_OT.cmp_lt s t) as Hl.
  unfold String_as_OT.cmp in *.
  destruct (String.compare s t); split; intro H; try reflexivity.
  - left. now apply He.
  - right. now apply Hl.
  - discriminate.
  - destruct H as [H|H]; [apply He in H | apply Hl in H]; discriminate.
Qed.

Lemma string_leb_trans (s t u : string) :
  String.leb s t = true -> String.leb t u = true -> String.leb s u = true.
Proof.
  rewrite !string_leb_iff. intros [E1|L1] [E2|L2]; subst; auto.
  right. eapply String_as_OT.lt_trans; eassumption.
Qed.

Lemma value_leb_total (a b : value) :
  value_leb a b = true \/ value_leb b a = true.
Proof.
  destruct a, b; simpl; auto.
  - destruct (Z.leb_spec z z0); [now left | right; apply Z.leb_le; lia].
  - apply String.leb_total.
  - destruct b, b0; simpl; auto.
Qed.

Lemma value_leb_trans (a b c : value) :
  value_leb a b = true -> value_leb b c = true -> value_leb a c = true.
Proof.
  destruct a, b, c; simpl; intros H1 H2;
    try reflexivity; try discriminate.
  - apply Z.leb_le in H1, H2. apply Z.leb_le. lia.
  - eapply string_leb_trans; eassumption.
  - destruct b, b0, b1; simpl in *; congruence.
Qed.

Section Sorting.

Context {A : Type} (leb : A -> A -> bool).

Lemma insert_In (a x : A) (l : list A) :
  In x (insert leb a l) <-> x = a \/ In x l.
Proof.
  induction l as [|b l IH]; simpl.
  - intuition.
  - destruct (leb a b); simpl; [intuition|].
    rewrite IH. intuition.
Qed.

Lemma sort_In (x : A) (l : list A) : In x (sort leb l) <-> In x l.
Proof.
  induction l as [|a l IH]; simpl; [tauto|].
  rewrite insert_In, IH. intuition.
Qed.

Hypothesis leb_total : forall a b, leb a b = true \/ leb b a = true.
Hypothesis leb_trans :
  forall a b c, leb a b = true -> leb b c = true -> leb a c = true.

(** The head of a sorted list is below every element. *)
Lemma sort_head_least (l : list A) (m : A) (rest : list A) :
  sort leb l = m :: rest -> forall y, In y l -> leb m y = true.
Proof.
  revert m rest. induction l as [|a l IH]; intros m rest E y Hy.
  - destruct Hy.
  - simpl in E. destruct (sort leb l) as [|b tail] eqn:Es.
    + simpl in E. inversion E; subst.
      destruct Hy as [Hy|Hy].
      * subst. destruct (leb_total y y); assumption.
      * apply (sort_In y l) in Hy. rewrite Es in Hy. destruct Hy.
    + simpl in E. destruct (leb a b) eqn:Eab; inversion E; subst.
      * destruct Hy as [Hy|Hy].
        -- subst. destruct (leb_total y y); assumption.
        -- apply leb_trans with b; [assumption|].
           now apply (IH b tail).
      * destruct Hy as [Hy|Hy].
        -- subst. destruct (leb_total y m); congruence.
        -- now apply (IH m tail).
Qed.

End Sorting.

Lemma max_bound {A : Type} (f : A -> nat) (l : list A) (x : A) :
  In x l -> (f x <= fold_right Nat.max O (map f l))%nat.
Proof.
  induction l as [|a l IH]; simpl; [easy|].
  intros [E|H]; [subst; lia | specialize (IH H); lia].
Qed.

Lemma max_attained {A : Type} (f : A -> nat) (l : list A) :
  l <> [] -> exists x, In x l /\ f x = fold_right Nat.max O (map f l).
Proof.
  induction l as [|a l IH]; [easy|]. intros _. simpl.
  destruct l as [|b l].
  - exists a. split; [now left | simpl; lia].
  - destruct IH as [x [Hx Ex]]; [easy|].
    destruct (Nat.le_ge_cases (f a) (fold_right Nat.max O (map f (b :: l))))
      as [Hle|Hge].
    + exists x. split; [now right | lia].
    + exists a. split; [now left | lia].
Qed.

Lemma count_filter (g : value -> bool) (v : value) (s : Series) :
  g v = true -> count v (filter g s) = count v s.
Proof.
  intro Hg. unfold count. f_equal.
  induction s as [|a s IH]; simpl; [reflexivity|].
  destruct (g a) eqn:Ega; simpl.
  - now rewrite IH.
  - destruct (value_eqb v a) eqn:E; [|assumption].
    apply value_eqb_eq in E. congruence.
Qed.

Lemma count_dropna (v : value) (s : Series) :
  isna v = false -> count v (dropna s) = count v s.
Proof.
  intro H. unfold dropna. apply count_filter. now rewrite H.
Qed.

Lemma count_pos (v : value) (s : Series) :
  In v s <-> (0 < count v s)%nat.
Proof.
  unfold count. split.
  - intro H. assert (Hin : In v (filter (value_eqb v) s)).
    { apply filter_In. split; [assumption | apply value_eqb_refl]. }
    destruct (filter (value_eqb v) s); [destruct Hin | simpl; lia].
  - intro H. destruct (filter (value_eqb v) s) as [|w l] eqn:E;
      [simpl in H; lia|].
    assert (Hin : In w (filter (value_eqb v) s)) by (rewrite E; now left).
    apply filter_In in Hin as [Hin Ew]. apply value_eqb_eq in Ew.
    now subst.
Qed.

Lemma dropna_In (v : value) (s : Series) :
  In v (dropna s) <-> In v s /\ isna v = false.
Proof.
  unfold dropna. rewrite filter_In. now rewrite negb_true_iff.
Qed.

(** C4, as stated, fails: in the column [Petrol, Diesel] both values occur
    once and Petrol is met first, yet the reported mode is Diesel. *)
Lemma mode_tie_is_not_first_occurrence :
  most_frequent_first [VStr "Petrol"; VStr "Diesel"] = Some (VStr "Petrol")
  /\ getitem0 (mode [VStr "Petrol"; VStr "Diesel"]) = Ok (VStr "Diesel").
Proof. split; reflexivity. Qed.

(** C4, amended: on a column with at least one non-missing value the
    most-frequent-value operation returns a non-missing value of the column
    whose number of occurrences is the highest, and when several values tie
    for it, the least of them in sorted order (for text, the order of the
    strings), whatever their order in the table. *)
Theorem mode_least_most_frequent (s : Series) :
  (exists v, In v s /\ isna v = false) ->
  exists m,
    getitem0 (mode s) = Ok m
    /\ In m s
    /\ isna m = false
    /\ (forall w, isna w = false -> (count w s <= count m s)%nat)
    /\ (forall w, isna w = false -> count w s = count m s ->
                  value_leb m w = true).
Proof.
  intros [v [Hv Nv]]. unfold mode.
  set (vals := dropna s).
  set (top := fold_right Nat.max O
                (map (fun v => count v vals) (unique vals))).
  set (cands := filter (fun v => Nat.eqb (count v vals) top) (unique vals)).
  assert (Hvals : In v (unique vals)).
  { apply unique_In, dropna_In. now split. }
  destruct (max_attained (fun v => count v vals) (unique vals))
    as [x [Hx Ex]].
  { intro E. rewrite E in Hvals. destruct Hvals. }
  fold top in Ex.
  assert (Hc : In x cands).
  { apply filter_In. split; [assumption|]. now apply Nat.eqb_eq. }
  destruct (sort value_leb cands) as [|m rest] eqn:Es.
  { apply (sort_In value_leb x cands) in Hc. rewrite Es in Hc.
    destruct Hc. }
  assert (Hm : In m cands).
  { apply (sort_In value_leb m cands). rewrite Es. now left. }
  apply filter_In in Hm as [Hm Em]. apply Nat.eqb_eq in Em.
  apply unique_In, dropna_In in Hm as [Hms Nm].
  assert (Em' : count m s = top).
  { rewrite <- (count_dropna m s Nm). exact Em. }
  assert (Hle : forall w, isna w = false -> (count w s <= count m s)%nat).
  { intros w Nw. destruct (Nat.eq_0_gt_0_cases (count w s)) as [E|Hpos];
      [lia|].
    apply count_pos in Hpos. rewrite Em'.
    rewrite <- (count_dropna w s Nw).
    apply (max_bound (fun v => count v vals)).
    apply unique_In, dropna_In. now split. }
  exists m. repeat split; try assumption.
  intros w Nw Ew.
  apply (sort_head_least value_leb value_leb_total value_leb_trans
           cands m rest Es).
  apply filter_In. split.
  - apply unique_In, dropna_In. split; [|assumption].
    apply count_pos. rewrite Ew. now apply count_pos.
  - apply Nat.eqb_eq. rewrite <- Em', <- Ew.
    exact (count_dropna w s Nw).
Qed.

(* ===================================================================== *)
(** ** Summary Reporter: the strongest correlation with Price *)

(** C5: the operation does not keep Price out of the answer.  In
    [flat_price_cars] every car has the same price, so every coefficient in
    the Price column of the correlation matrix is [nan]; the sort leaves
    the labels [Year, Price] in column order and position 1 is Price
    itself, whatever the floating-point coefficient routine is. *)
Theorem strongest_correlation_reports_price
  (pearson : list (Z * Z) -> Q) :
  strongest_correlation pearson flat_price_cars = Ok "Price".
Proof. reflexivity. Qed.

(* ===================================================================== *)
(** ** The figures of an empty selection *)

(** C7, as stated, fails: with no manufacturer selected on [cars] the
    three figures are the number 0 and two [nan]s; none of them is an
    explicit "undefined" indicator and the two means show [nan] as it
    is. *)
Lemma empty_selection_shows_nan :
  filtered_kpis cars [] (2012, 2018)
  = ([metric "🚗 Selected Cars" (SInt 0);
      metric "💸 Average Price" (SFloat nan);
      metric "⚡ Average Power" (SFloat nan)],
     Ok tt)
  /\ existsb explicit_undefined
       (metric_values (screen (filtered_kpis cars [] (2012, 2018))))
     = false.
Proof. split; reflexivity. Qed.

Lemma getitem_without_rows (cols : list (string * dtype)) (name : string) :
  In name (map fst cols) ->
  getitem {| columns := cols; rows := [] |} name = Ok [].
Proof.
  intro H. destruct (index_of_Some _ _ H) as [j Hj].
  unfold getitem, column_names. cbn [columns]. now rewrite Hj.
Qed.

(** C7, amended: on a table that has the Price and Power_value columns,
    whenever the filter yields a subset without rows (with no manufacturer
    selected, say, or with a year interval that holds none of the selected
    cars) the three figures are shown without an exception: the row count
    is 0 and the mean price and the mean power are [nan], the mean of a
    column without values; there is no separate "undefined" indicator. *)
Theorem empty_selection_figures (clean : DataFrame) (company : list value)
  (year : Z * Z) (df : DataFrame) :
  filter_engine clean company year = Ok df ->
  rows df = [] ->
  In "Price" (column_names clean) ->
  In "Power_value" (column_names clean) ->
  mean [] = Ok nan
  /\ kpis df
     = ([metric "🚗 Selected Cars" (SInt 0);
         metric "💸 Average Price" (SFloat nan);
         metric "⚡ Average Power" (SFloat nan)],
        Ok tt)
  /\ filtered_kpis clean company year
     = ([metric "🚗 Selected Cars" (SInt 0);
         metric "💸 Average Price" (SFloat nan);
         metric "⚡ Average Power" (SFloat nan)],
        Ok tt)
  /\ forall other, exists none,
       filter_engine clean [] other = Ok none /\ rows none = [].
Proof.
  intros Ef Hr Hp Hw.
  destruct (filter_engine_inv _ _ _ _ Ef) as [jc [jy [Hc [Hy [Ht E]]]]].
  assert (Ek : kpis df
               = ([metric "🚗 Selected Cars" (SInt 0);
                   metric "💸 Average Price" (SFloat nan);
                   metric "⚡ Average Power" (SFloat nan)],
                  Ok tt)).
  { subst df. simpl in Hr. rewrite Hr. unfold kpis.
    rewrite (getitem_without_rows _ "Price" Hp).
    rewrite (getitem_without_rows _ "Power_value" Hw).
    reflexivity. }
  split; [reflexivity|]. split; [exact Ek|]. split.
  - unfold filtered_kpis. rewrite Ef, then_eval_ok. exact Ek.
  - intro other. eexists.
    split; [now apply (filter_engine_rows clean jc jy)|].
    simpl. apply filter_none. reflexivity.
Qed.

(* ===================================================================== *)
(** ** Missing columns *)

(** C8: a missing column is not caught.  On every table without the Price
    column the introduction page shows its title, its text and the number
    of cars and then stops with the [KeyError] of [clean["Price"]]: no
    warning takes the place of the average price and the rest of the page
    is not rendered. *)
Theorem introduction_stops_without_price (raw clean : DataFrame) :
  ~ In "Price" (column_names clean) ->
  introduction raw clean
  = ([title "🚗 Cars Analytics Dashboard";
      markdown "🔍 Introduction";
      metric "🚘 Total Cars" (SInt (len clean))],
     Raise (KeyError "Price")).
Proof.
  intro H. unfold introduction.
  rewrite (getitem_absent clean "Price" H). reflexivity.
Qed.

(** The same on the conclusion page, for every table without the Price
    column. *)
Lemma conclusions_stop_without_price (pearson : list (Z * Z) -> Q)
  (clean : DataFrame) :
  ~ In "Price" (column_names clean) ->
  outcome (conclusions pearson clean) = Raise (KeyError "Price").
Proof.
  intro H. unfold conclusions, highest_price_car.
  rewrite (getitem_absent clean "Price" H). reflexivity.
Qed.

(** C9: with the grouped-bar method chosen, the multivariate selector
    never raises; it shows the bar chart of Price by Fuel_Type, and nothing
    else, when both columns are in the subset, and it shows the
    missing-columns warning, and no chart, when either is absent.  So a
    chart is shown exactly when both columns are present. *)
Theorem grouped_bar_needs_both_columns (pearson : list (Z * Z) -> Q)
  (df : DataFrame) :
  outcome (multivariate pearson df "Grouped Bar") = Ok tt
  /\ (In "Fuel_Type" (column_names df) /\ In "Price" (column_names df) ->
      screen (multivariate pearson df "Grouped Bar")
      = [pyplot (barplot "Fuel_Type" "Price"
                   (if has_column "Transmission" df
                    then Some "Transmission" else None))])
  /\ (~ (In "Fuel_Type" (column_names df) /\ In "Price" (column_names df)) ->
      screen (multivariate pearson df "Grouped Bar")
      = [warning "⚠️ Required columns missing"])
  /\ ((exists c, In (pyplot c) (screen (multivariate pearson df "Grouped Bar")))
      <-> In "Fuel_Type" (column_names df) /\ In "Price" (column_names df)).
Proof.
  unfold multivariate, screen, outcome. simpl.
  rewrite <- !has_column_In.
  destruct (has_column "Fuel_Type" df), (has_column "Price" df); simpl.
  - split; [reflexivity|]. split; [reflexivity|]. split.
    + intro H. exfalso. apply H. now split.
    + split; [now split|]. intros _. eexists. left. reflexivity.
  - split; [reflexivity|]. split; [intros [_ H]; discriminate|].
    split; [reflexivity|]. split.
    + intros [c [H|[]]]. discriminate.
    + intros [_ H]. discriminate.
  - split; [reflexivity|]. split; [intros [H _]; discriminate|].
    split; [reflexivity|]. split.
    + intros [c [H|[]]]. discriminate.
    + intros [H _]. discriminate.
  - split; [reflexivity|]. split; [intros [H _]; discriminate|].
    split; [reflexivity|]. split.
    + intros [c [H|[]]]. discriminate.
    + intros [H _]. discriminate.
Qed.

(* ===================================================================== *)
(** ** The theorems on the example frames *)

Lemma cars_names_distinct : NoDup (column_names cars).
Proof. distinct_names. Qed.

(** The amended C1 on [cars]: every company of the table with the years
    from 2012 to 2018 gives the table back. *)
Lemma filter_engine_correct_witness :
  filter_engine cars [VStr "Maruti"; VStr "Honda"; VStr "BMW"] (2012, 2018)
  = Ok cars.
Proof.
  assert (Htext : forall row t, In row (rows cars) -> cell 1 row <> VStr t).
  { intros row t H. simpl in H.
    destruct H as [H|[H|[H|[H|[]]]]]; subst; discriminate. }
  destruct (proj2 (proj2 (proj2
             (filter_engine_correct cars 0 1 eq_refl eq_refl Htext)))
             [VStr "Maruti"; VStr "Honda"; VStr "BMW"] 2012 2018)
    as [df [E [_ [_ Hall]]]].
  - intros row H. simpl in H.
    destruct H as [H|[H|[H|[H|[]]]]]; subst; simpl; auto.
  - intros row H. simpl in H.
    destruct H as [H|[H|[H|[H|[]]]]]; subst; right; constructor; lia.
  - rewrite E. f_equal. apply Hall.
    intros row H. simpl in H.
    destruct H as [H|[H|[H|[H|[]]]]]; subst; discriminate.
Defined.


(** C10 on [cars]: the boolean column. *)
Lemma other_dtype_routing_witness :
  ~ In "Is_Automatic" (num_cols cars)
  /\ ~ In "Is_Automatic" (cat_cols cars)
  /\ univariate cars "Is_Automatic" "KDE" = ret (kdeplot "Is_Automatic" true)
  /\ bivariate (fun _ => 0%Q) cars "Is_Automatic" "Price"
     = ret (countplot (Some "Is_Automatic") None (Some "Price")).
Proof.
  destruct (other_dtype_routing (fun _ => 0%Q) cars "Is_Automatic" bool_
              cars_names_distinct)
    as [H1 [H2 [H3 H4]]].
  - simpl. auto 10.
  - reflexivity.
  - reflexivity.
  - split; [exact H1|]. split; [exact H2|]. split.
    + exact (H3 "KDE").
    + exact (proj1 (H4 "Price")).
Defined.


(** The amended C4 on a column with a tie. *)
Lemma mode_least_most_frequent_witness :
  exists m,
    getitem0 (mode [VStr "Petrol"; VNaN; VStr "Diesel"]) = Ok m
    /\ In m [VStr "Petrol"; VNaN; VStr "Diesel"]
    /\ isna m = false
    /\ (forall w, isna w = false ->
          (count w [VStr "Petrol"; VNaN; VStr "Diesel"]
           <= count m [VStr "Petrol"; VNaN; VStr "Diesel"])%nat)
    /\ (forall w, isna w = false ->
          count w [VStr "Petrol"; VNaN; VStr "Diesel"]
          = count m [VStr "Petrol"; VNaN; VStr "Diesel"] ->
          value_leb m w = true).
Proof.
  apply (mode_least_most_frequent [VStr "Petrol"; VNaN; VStr "Diesel"]).
  exists (VStr "Petrol"). split; [simpl; auto | reflexivity].
Defined.

(** The amended C7 on [cars]: one company selected, in years it has no
    car of. *)
Lemma empty_selection_figures_witness :
  mean [] = Ok nan
  /\ kpis {| columns := columns cars; rows := [] |}
     = ([metric "🚗 Selected Cars" (SInt 0);
         metric "💸 Average Price" (SFloat nan);
         metric "⚡ Average Power" (SFloat nan)],
        Ok tt)
  /\ filtered_kpis cars [VStr "BMW"] (2012, 2013)
     = ([metric "🚗 Selected Cars" (SInt 0);
         metric "💸 Average Price" (SFloat nan);
         metric "⚡ Average Power" (SFloat nan)],
        Ok tt)
  /\ forall other, exists none,
       filter_engine cars [] other = Ok none /\ rows none = [].
Proof.
  apply (empty_selection_figures cars [VStr "BMW"] (2012, 2013)).
  - reflexivity.
  - reflexivity.
  - simpl. auto.
  - simpl. auto.
Defined.

(** C8 on [cars_without_price]. *)
Lemma introduction_stops_without_price_witness :
  introduction cars_without_price cars_without_price
  = ([title "🚗 Cars Analytics Dashboard";
      markdown "🔍 Introduction";
      metric "🚘 Total Cars" (SInt 2)],
     Raise (KeyError "Price")).
Proof.
  apply (introduction_stops_without_price cars_without_price
           cars_without_price).
  simpl. intuition discriminate.
Defined.

(* ===================================================================== *)
(** * Further properties of the script

    As above, the calls that put something on the screen ([st.*], [sns.*])
    are taken to return: "raises" and "renders to its end" speak of the
    script's own pandas and Python expressions. *)

(** ** Page scripts *)

Lemma then_eval_raise {A B : Type} (e : exn) (f : A -> Script B) :
  then_ (eval (Raise e)) f = ([], Raise e).
Proof. reflexivity. Qed.

Lemma outcome_then {A B : Type} (m : Script A) (f : A -> Script B) :
  outcome (then_ m f)
  = match outcome m with
    | Ok a => outcome (f a)
    | Raise e => Raise e
    end.
Proof.
  destruct m as [out [a|e]]; simpl; [|reflexivity].
  destruct (f a). reflexivity.
Qed.

Lemma screen_then {A B : Type} (m : Script A) (f : A -> Script B) :
  screen (then_ m f)
  = screen m ++ match outcome m with
                | Ok a => screen (f a)
                | Raise _ => []
                end.
Proof.
  destruct m as [out [a|e]]; simpl.
  - destruct (f a). reflexivity.
  - now rewrite app_nil_r.
Qed.

Lemma then_emit {B : Type} (o : output) (f : unit -> Script B) :
  then_ (emit o) f = (o :: screen (f tt), outcome (f tt)).
Proof. unfold then_, emit. destruct (f tt). reflexivity. Qed.

Lemma script_eta {A : Type} (m : Script A) : m = (screen m, outcome m).
Proof. now destruct m. Qed.

(** ** Order-preserving sublists *)

Lemma sublist_nil_l {A : Type} (l : list A) : sublist [] l.
Proof. induction l; now constructor. Qed.

Lemma sublist_refl {A : Type} (l : list A) : sublist l l.
Proof. induction l; now constructor. Qed.

Lemma sublist_length {A : Type} (l1 l2 : list A) :
  sublist l1 l2 -> (length l1 <= length l2)%nat.
Proof. induction 1; simpl; lia. Qed.

Lemma sublist_trans {A : Type} (l1 l2 l3 : list A) :
  sublist l1 l2 -> sublist l2 l3 -> sublist l1 l3.
Proof.
  intros H12 H23. revert l1 H12.
  induction H23 as [|x l2 l3 H IH|x l2 l3 H IH]; intros l1 H12.
  - assumption.
  - constructor. now apply IH.
  - inversion H12; subst.
    + apply sublist_skip. now apply IH.
    + apply sublist_keep. now apply IH.
Qed.

Lemma sublist_filter_impl {A : Type} (p q : A -> bool) (l : list A) :
  (forall a, In a l -> p a = true -> q a = true) ->
  sublist (filter p l) (filter q l).
Proof.
  induction l as [|a l IH]; simpl; intro H; [constructor|].
  assert (IH' : sublist (filter p l) (filter q l)).
  { apply IH. intros b Hb. apply H. now right. }
  destruct (p a) eqn:Ep.
  - rewrite (H a (or_introl eq_refl) Ep). now constructor.
  - destruct (q a); [now constructor | assumption].
Qed.

(* ===================================================================== *)
(** ** More on the Filter Engine *)

(** X1: the subset shown on the analysis page is a part of the table: it has
    the same columns with the same dtypes, hence the same numeric and
    categorical lists, and its rows are rows of the table in table order, so
    the number of selected cars never exceeds the total. *)
Theorem filter_engine_subtable (clean : DataFrame) (company : list value)
  (year : Z * Z) (df : DataFrame) :
  filter_engine clean company year = Ok df ->
  columns df = columns clean
  /\ num_cols df = num_cols clean
  /\ cat_cols df = cat_cols clean
  /\ sublist (rows df) (rows clean)
  /\ len df <= len clean.
Proof.
  intro H. apply filter_engine_inv in H as [jc [jy [_ [_ [_ E]]]]].
  subst df. unfold num_cols, cat_cols, len. rewrite !names_of_selection.
  simpl. repeat split.
  - apply sublist_filter.
  - apply Nat2Z.inj_le, sublist_length, sublist_filter.
Qed.

(** X2: whether the filter raises does not depend on what the user selects:
    it raises [KeyError] when the Company_Name or the Year column is
    absent, [TypeError] when the Year column holds text, and returns a
    subset in every other case. *)
Theorem filter_engine_errors (clean : DataFrame) (company : list value)
  (year : Z * Z) :
  (~ In "Company_Name" (column_names clean) ->
   filter_engine clean company year = Raise (KeyError "Company_Name"))
  /\ (In "Company_Name" (column_names clean) ->
      ~ In "Year" (column_names clean) ->
      filter_engine clean company year = Raise (KeyError "Year"))
  /\ (forall y,
        In "Company_Name" (column_names clean) ->
        getitem clean "Year" = Ok y ->
        existsb is_str y = true ->
        filter_engine clean company year = Raise TypeError)
  /\ (forall y,
        In "Company_Name" (column_names clean) ->
        getitem clean "Year" = Ok y ->
        existsb is_str y = false ->
        exists df, filter_engine clean company year = Ok df).
Proof.
  split; [|split; [|split]].
  - intro H. unfold filter_engine.
    now rewrite (getitem_absent clean "Company_Name" H).
  - intros Hc Hy. unfold filter_engine.
    destruct (getitem_present clean "Company_Name" Hc) as [c Ec].
    rewrite Ec. simpl. now rewrite (getitem_absent clean "Year" Hy).
  - intros y Hc Ey Ht. unfold filter_engine.
    destruct (getitem_present clean "Company_Name" Hc) as [c Ec].
    rewrite Ec. simpl. rewrite Ey. simpl.
    unfold between. now rewrite Ht.
  - intros y Hc Ey Ht. unfold filter_engine.
    destruct (getitem_present clean "Company_Name" Hc) as [c Ec].
    rewrite Ec. simpl. rewrite Ey. simpl.
    unfold between. rewrite Ht. simpl. now eexists.
Qed.

(** X3: widening the selection never loses a car: with more companies chosen
    and a wider year interval, the rows selected before are still selected,
    in the same order. *)
Theorem filter_engine_monotone (clean : DataFrame)
  (company company' : list value) (lo hi lo' hi' : Z)
  (df df' : DataFrame) :
  incl company company' ->
  lo' <= lo ->
  hi <= hi' ->
  filter_engine clean company (lo, hi) = Ok df ->
  filter_engine clean company' (lo', hi') = Ok df' ->
  sublist (rows df) (rows df').
Proof.
  intros Hi Hlo Hhi H H'.
  apply filter_engine_inv in H as [jc [jy [Hc [Hy [_ E]]]]].
  apply filter_engine_inv in H' as [jc' [jy' [Hc' [Hy' [_ E']]]]].
  rewrite Hc in Hc'. rewrite Hy in Hy'.
  inversion Hc'; inversion Hy'; subst. simpl.
  apply sublist_filter_impl. intros row _ Hs.
  apply selected_iff in Hs as [Hin [z [Ez Hz]]]. simpl in Hz.
  apply selected_iff. split; [now apply Hi|].
  exists z. split; [assumption|]. simpl. lia.
Qed.

(* ===================================================================== *)
(** ** The selection widgets *)

Lemma fold_min_In (l : list Z) (a : Z) : In (fold_left Z.min l a) (a :: l).
Proof.
  revert a. induction l as [|b l IH]; intro a; simpl; [now left|].
  destruct (IH (Z.min a b)) as [E|H].
  - destruct (Z.min_spec a b) as [[_ M]|[_ M]]; rewrite M in *; auto.
  - auto.
Qed.

Lemma fold_max_In (l : list Z) (a : Z) : In (fold_left Z.max l a) (a :: l).
Proof.
  revert a. induction l as [|b l IH]; intro a; simpl; [now left|].
  destruct (IH (Z.max a b)) as [E|H].
  - destruct (Z.max_spec a b) as [[_ M]|[_ M]]; rewrite M in *; auto.
  - auto.
Qed.

Lemma nums_source (s : Series) (z : Z) :
  In z (nums s) -> exists v, In v s /\ num_of v = Some z.
Proof.
  unfold nums. intro H. apply in_flat_map in H as [v [Hv Hz]].
  exists v. split; [assumption|].
  destruct (num_of v) as [w|]; [|destruct Hz].
  destruct Hz as [E|[]]. now subst.
Qed.

(** X4: on a Year column of whole numbers, some cells possibly missing, with
    at least one year present, the year slider runs from the earliest to the
    latest year of the table: each end is the year of some row, and the year
    of every row lies between them. *)
Theorem year_range_attained (clean : DataFrame) (jy : nat) :
  index_of "Year" (column_names clean) = Some jy ->
  (forall row, In row (rows clean) ->
     cell jy row = VNaN \/ exists z, cell jy row = VNum z) ->
  (exists row z, In row (rows clean) /\ cell jy row = VNum z) ->
  exists lo hi,
    year_range clean = Ok (lo, hi)
    /\ (exists row, In row (rows clean) /\ cell jy row = VNum lo)
    /\ (exists row, In row (rows clean) /\ cell jy row = VNum hi)
    /\ forall row z, In row (rows clean) -> cell jy row = VNum z ->
         lo <= z <= hi.
Proof.
  intros Ey Hw [row0 [z0 [Hr0 Ez0]]].
  assert (Ht : existsb is_str (column_at jy clean) = false).
  { apply text_free_column. intros row t Hr E.
    destruct (Hw row Hr) as [N|[z N]]; congruence. }
  assert (Hin : forall row z, In row (rows clean) -> cell jy row = VNum z ->
                In z (nums (column_at jy clean))).
  { intros row z Hr E. apply (nums_In _ (cell jy row)).
    - unfold column_at. now apply in_map.
    - now rewrite E. }
  assert (Hsrc : forall z, In z (nums (column_at jy clean)) ->
                 exists row, In row (rows clean) /\ cell jy row = VNum z).
  { intros z Hz. apply nums_source in Hz as [v [Hv Ev]].
    unfold column_at in Hv. apply in_map_iff in Hv as [row [Er Hr]].
    exists row. split; [assumption|]. subst v.
    destruct (Hw row Hr) as [N|[w N]]; rewrite N in Ev; simpl in Ev;
      [discriminate|]. inversion Ev. now subst. }
  unfold year_range, getitem. rewrite Ey. simpl.
  unfold Series_min, Series_max, numeric. rewrite Ht. simpl.
  destruct (nums (column_at jy clean)) as [|a l] eqn:En.
  { destruct (Hin row0 z0 Hr0 Ez0). }
  simpl. rewrite !Z.quot_1_r.
  exists (fold_left Z.min l a), (fold_left Z.max l a).
  split; [reflexivity|].
  split; [apply Hsrc, fold_min_In|].
  split; [apply Hsrc, fold_max_In|].
  intros row z Hr E. destruct (Hin row z Hr E) as [Ea|Hl].
  - subst. split;
      [exact (proj1 (fold_min_le l z)) | exact (proj1 (fold_max_ge l z))].
  - split;
      [exact (proj2 (fold_min_le l a) z Hl)
      | exact (proj2 (fold_max_ge l a) z Hl)].
Qed.

Lemma NoDup_unique (s : Series) : NoDup (unique s).
Proof.
  induction s as [|v s IH]; simpl; constructor.
  - intro H. apply filter_In in H as [_ H].
    now rewrite value_eqb_refl in H.
  - now apply NoDup_filter.
Qed.

Lemma sublist_unique (s : Series) : sublist (unique s) s.
Proof.
  induction s as [|v s IH]; simpl; [constructor|].
  apply sublist_keep.
  eapply sublist_trans; [apply sublist_filter | exact IH].
Qed.

(** Filtering keeps the cells in their order. *)
Lemma filter_keeps_order (f : value -> bool) (l : list value) (i j : nat)
  (u v : value) :
  nth_error (filter f l) i = Some u ->
  nth_error (filter f l) j = Some v ->
  (i < j)%nat ->
  exists i' j',
    (i' < j')%nat /\ nth_error l i' = Some u /\ nth_error l j' = Some v.
Proof.
  revert i j. induction l as [|a l IH]; intros i j Hi Hj Hlt; simpl in *.
  - destruct i; discriminate.
  - destruct (f a).
    + destruct j as [|j]; [lia|]. simpl in Hj. destruct i as [|i].
      * simpl in Hi. apply nth_error_In in Hj.
        apply filter_In in Hj as [Hj _].
        apply In_nth_error in Hj as [j' Hj'].
        exists O, (S j'). split; [lia|]. now split.
      * simpl in Hi.
        destruct (IH i j Hi Hj ltac:(lia)) as [i' [j' [L [A B]]]].
        exists (S i'), (S j'). split; [lia|]. now split.
    + destruct (IH i j Hi Hj Hlt) as [i' [j' [L [A B]]]].
      exists (S i'), (S j'). split; [lia|]. now split.
Qed.

(** Of two cells of [unique s], the earlier one occurs in [s] before every
    occurrence of the later one. *)
Lemma unique_first_appearance (s : Series) (i j : nat) (u v : value) :
  nth_error (unique s) i = Some u ->
  nth_error (unique s) j = Some v ->
  (i < j)%nat ->
  exists k, nth_error s k = Some u
            /\ forall k', nth_error s k' = Some v -> (k < k')%nat.
Proof.
  revert i j. induction s as [|a s IH]; intros i j Hi Hj Hlt; simpl in *.
  - destruct i; discriminate.
  - destruct j as [|j]; [lia|]. simpl in Hj. destruct i as [|i].
    + simpl in Hi. inversion Hi. subst a. exists O. split; [reflexivity|].
      intros [|k'] Hk; [|lia]. simpl in Hk. inversion Hk. subst v.
      apply nth_error_In, filter_In in Hj as [_ Hj].
      now rewrite value_eqb_refl in Hj.
    + simpl in Hi.
      pose proof (nth_error_In _ _ Hj) as Hv.
      apply filter_In in Hv as [_ Hv].
      destruct (filter_keeps_order _ _ _ _ _ _ Hi Hj ltac:(lia))
        as [i' [j' [L [A B]]]].
      destruct (IH i' j' A B L) as [k [Ek Hk]].
      exists (S k). split; [exact Ek|].
      intros [|k'] E; simpl in E.
      * inversion E. subst v. now rewrite value_eqb_refl in Hv.
      * specialize (Hk k' E). lia.
Qed.

(** X5: the manufacturer multiselect offers every value of the Company_Name
    column once, in order of first appearance: of two options, the one
    listed first occurs in the column before every occurrence of the other.
    Selecting all of them (the default) passes the company test in every
    row. *)
Theorem company_options_cover (clean : DataFrame) (c : Series) :
  getitem clean "Company_Name" = Ok c ->
  exists options,
    company_options clean = Ok options
    /\ NoDup options
    /\ (forall v, In v options <-> In v c)
    /\ (forall i j u v,
          nth_error options i = Some u ->
          nth_error options j = Some v ->
          (i < j)%nat ->
          exists k, nth_error c k = Some u
                    /\ forall k', nth_error c k' = Some v -> (k < k')%nat)
    /\ forallb (fun b => b) (isin c options) = true.
Proof.
  intro Ec. exists (unique c). unfold company_options. rewrite Ec.
  split; [reflexivity|]. split; [apply NoDup_unique|].
  split; [intro v; apply unique_In|].
  split; [intros i j u v; apply unique_first_appearance|].
  unfold isin. rewrite forallb_forall. intros b Hb.
  apply in_map_iff in Hb as [v [E Hv]]. subst b.
  apply isin_In, unique_In. exact Hv.
Qed.

(** X6: the number of companies shown on the introduction page counts the
    distinct non-missing names, so it is never above the number of cars. *)
Theorem companies_at_most_cars (clean : DataFrame) (c : Series) :
  getitem clean "Company_Name" = Ok c ->
  0 <= nunique c <= len clean
  /\ (nunique c = 0 <-> forall v, In v c -> v = VNaN).
Proof.
  intro Ec. unfold getitem in Ec.
  destruct (index_of "Company_Name" (column_names clean)) as [j|];
    [|discriminate].
  inversion Ec; subst c. clear Ec. unfold nunique, len. split.
  - split; [lia|]. apply Nat2Z.inj_le.
    etransitivity; [apply sublist_length, sublist_unique|].
    etransitivity; [apply sublist_length, sublist_filter|].
    unfold column_at. now rewrite length_map.
  - split.
    + intros H v Hv. destruct (isna v) eqn:E; [now destruct v|].
      assert (Hin : In v (unique (dropna (column_at j clean)))).
      { apply unique_In, dropna_In. now split. }
      destruct (unique (dropna (column_at j clean)));
        [destruct Hin | simpl in H; lia].
    + intro H. destruct (unique (dropna (column_at j clean))) as [|v l] eqn:E;
        [reflexivity|].
      assert (Hin : In v (unique (dropna (column_at j clean))))
        by (rewrite E; now left).
      apply unique_In, dropna_In in Hin as [Hin Hna].
      rewrite (H v Hin) in Hna. discriminate.
Qed.

(* ===================================================================== *)
(** ** The introduction page as a whole *)

Ltac run := repeat (rewrite then_eval_ok; cbv beta).


Lemma mean_cases (s : Series) :
  mean s
  = if existsb is_str s then Raise TypeError
    else Ok match nums s with
            | [] => nan
            | _ => fin (Qdiv (inject_Z (fold_left Z.add (nums s) 0))
                             (inject_Z (Z.of_nat (length (nums s)))))
            end.
Proof. unfold mean, numeric. destruct (existsb is_str s); reflexivity. Qed.

Lemma mean_without_text (s : Series) :
  existsb is_str s = false -> exists m, mean s = Ok m.
Proof. intro H. rewrite mean_cases, H. now eexists. Qed.



Lemma has_column_index (name : string) (df : DataFrame) :
  has_column name df = true ->
  exists j, index_of name (column_names df) = Some j.
Proof. intro H. apply index_of_Some. now apply has_column_In. Qed.

Lemma index_of_nth (name : string) (cols : list (string * dtype)) (j : nat) :
  index_of name (map fst cols) = Some j ->
  fst (nth j cols ("", object_)) = name.
Proof.
  revert j. induction cols as [|[n d] cols IH]; simpl; intros j H;
    [discriminate|].
  destruct (String.eqb_spec name n) as [E|E].
  - inversion H. now subst.
  - destruct (index_of name (map fst cols)) as [i|]; [|discriminate].
    inversion H. now apply IH.
Qed.

(** The frame handed to the map. *)
Lemma location_frame (clean : DataFrame) :
  has_column "Latitude" clean && has_column "Longitude" clean = true ->
  exists d,
    getitem_list clean ["Latitude"; "Longitude"] = Ok d
    /\ column_names d = ["Latitude"; "Longitude"]
    /\ length (rows d) = length (rows clean).
Proof.
  intro H. apply andb_true_iff in H as [Ha Ho].
  destruct (has_column_index _ _ Ha) as [ja Ea].
  destruct (has_column_index _ _ Ho) as [jo Eo].
  unfold getitem_list. simpl. rewrite Ea, Eo. simpl.
  eexists. split; [reflexivity|]. split.
  - unfold column_names. simpl.
    now rewrite (index_of_nth _ _ _ Ea), (index_of_nth _ _ _ Eo).
  - simpl. now rewrite length_map.
Qed.

(** [st.map] finds no coordinates under the names the script passes. *)
Lemma st_map_rejects (d : DataFrame) :
  column_names d = ["Latitude"; "Longitude"] ->
  st_map d = eval (Raise StreamlitAPIException).
Proof. intro H. unfold st_map, has_column. now rewrite H. Qed.

(** The page when none of the metrics raises: it runs to the location
    section, where the map call raises when both coordinate columns are
    there. *)
Lemma introduction_run (raw clean : DataFrame) (p k c : Series)
  (mp mk : float) (i : Z) :
  getitem clean "Price" = Ok p ->
  mean p = Ok mp ->
  getitem clean "Kilometers_Driven" = Ok k ->
  mean k = Ok mk ->
  py_int mk = Ok i ->
  getitem clean "Company_Name" = Ok c ->
  introduction raw clean
  = ([title "🚗 Cars Analytics Dashboard";
      markdown "🔍 Introduction";
      metric "🚘 Total Cars" (SInt (len clean));
      metric "💰 Average Price" (SFloat (py_round mp 2));
      metric "📏 Average KM" (SInt i);
      metric "🏭 Total Companies" (SInt (nunique c));
      subheader "📄 Raw Dataset";
      dataframe raw;
      subheader "🧹 Cleaned Dataset";
      dataframe clean;
      subheader "🗺️ Location Map"]
     ++ (if has_column "Latitude" clean && has_column "Longitude" clean
         then []
         else [info "ℹ️ Latitude and Longitude not available"]),
     if has_column "Latitude" clean && has_column "Longitude" clean
     then Raise StreamlitAPIException
     else Ok tt).
Proof.
  intros Ep Emp Ek Emk Ei Ec. unfold introduction.
  rewrite Ep. run. rewrite Emp. run. rewrite Ek. run. rewrite Emk. run.
  rewrite Ei. run. rewrite Ec. run.
  destruct (has_column "Latitude" clean && has_column "Longitude" clean)
    eqn:E.
  - destruct (location_frame clean E) as [d [Ed [Hn Hr]]].
    rewrite Ed. run. rewrite (st_map_rejects d Hn). reflexivity.
  - reflexivity.
Qed.


Ltac shown_so_far :=
  let o := fresh "o" in
  let Ho := fresh "Ho" in
  intros o Ho; simpl in Ho; decompose [or] Ho; subst; try contradiction;
  match goal with
  | |- exists l v, title ?s = _ \/ _ => exists s, (SInt 0); auto
  | |- exists l v, markdown ?s = _ \/ _ => exists s, (SInt 0); auto
  | |- exists l v, metric ?s ?w = _ \/ _ => exists s, w; auto
  end.

(** When the page stops early it has shown only its title, its text and
    metrics. *)
Lemma introduction_cases (raw clean : DataFrame) :
  (exists p k c mp mk i,
      getitem clean "Price" = Ok p /\ mean p = Ok mp
      /\ getitem clean "Kilometers_Driven" = Ok k /\ mean k = Ok mk
      /\ py_int mk = Ok i /\ getitem clean "Company_Name" = Ok c)
  \/ (exists out e,
        introduction raw clean = (out, Raise e)
        /\ forall o, In o out ->
             exists l v, o = title l \/ o = markdown l \/ o = metric l v).
Proof.
  destruct (getitem clean "Price") as [p|e] eqn:Ep.
  2: { right. unfold introduction. rewrite Ep. do 2 eexists.
       split; [reflexivity|]. shown_so_far. }
  destruct (mean p) as [mp|e] eqn:Emp.
  2: { right. unfold introduction. rewrite Ep. run. rewrite Emp.
       do 2 eexists. split; [reflexivity|]. shown_so_far. }
  destruct (getitem clean "Kilometers_Driven") as [k|e] eqn:Ek.
  2: { right. unfold introduction. rewrite Ep. run. rewrite Emp. run.
       rewrite Ek. do 2 eexists. split; [reflexivity|].
       shown_so_far. }
  destruct (mean k) as [mk|e] eqn:Emk.
  2: { right. unfold introduction. rewrite Ep. run. rewrite Emp. run.
       rewrite Ek. run. rewrite Emk. do 2 eexists. split; [reflexivity|].
       shown_so_far. }
  destruct (py_int mk) as [i|e] eqn:Ei.
  2: { right. unfold introduction. rewrite Ep. run. rewrite Emp. run.
       rewrite Ek. run. rewrite Emk. run. rewrite Ei.
       do 2 eexists. split; [reflexivity|]. shown_so_far. }
  destruct (getitem clean "Company_Name") as [c|e] eqn:Ec.
  2: { right. unfold introduction. rewrite Ep. run. rewrite Emp. run.
       rewrite Ek. run. rewrite Emk. run. rewrite Ei. run. rewrite Ec.
       do 2 eexists. split; [reflexivity|]. shown_so_far. }
  left. exists p, k, c, mp, mk, i. repeat split; first [assumption | reflexivity].
Qed.

(** X8: the location map is never shown.  [st.map] does not find
    coordinates under the names Latitude and Longitude, so when both columns
    are in the table the page does not render to its end, and once it has
    reached the location section it stops there with the exception of the
    map call; the "not available" note is shown only when one of the two
    columns is absent, and a page that renders to its end shows it. *)
Theorem location_map_guard (raw clean : DataFrame) :
  (forall d, ~ In (map_ d) (screen (introduction raw clean)))
  /\ (In "Latitude" (column_names clean) ->
      In "Longitude" (column_names clean) ->
      (exists e, outcome (introduction raw clean) = Raise e)
      /\ (In (subheader "🗺️ Location Map") (screen (introduction raw clean))
          -> outcome (introduction raw clean) = Raise StreamlitAPIException))
  /\ (In (info "ℹ️ Latitude and Longitude not available")
         (screen (introduction raw clean)) ->
      ~ (In "Latitude" (column_names clean)
         /\ In "Longitude" (column_names clean)))
  /\ (outcome (introduction raw clean) = Ok tt ->
      In (info "ℹ️ Latitude and Longitude not available")
         (screen (introduction raw clean))).
Proof.
  destruct (introduction_cases raw clean)
    as [[p [k [c [mp [mk [i [Ep [Emp [Ek [Emk [Ei Ec]]]]]]]]]]]
       |[out [e [E Hout]]]].
  - rewrite (introduction_run raw clean p k c mp mk i Ep Emp Ek Emk Ei Ec).
    unfold screen, outcome. simpl.
    destruct (has_column "Latitude" clean && has_column "Longitude" clean)
      eqn:Hb.
    + split; [|split; [|split]].
      * intros d H. simpl in H.
        decompose [or] H; try discriminate; contradiction.
      * intros _ _. split; [now eexists | reflexivity].
      * intro H. simpl in H.
        decompose [or] H; try discriminate; contradiction.
      * discriminate.
    + split; [|split; [|split]].
      * intros d H. simpl in H.
        decompose [or] H; try discriminate; contradiction.
      * intros Ha Ho. apply has_column_In in Ha, Ho.
        rewrite Ha, Ho in Hb. discriminate.
      * intros _ [Ha Ho]. apply has_column_In in Ha, Ho.
        rewrite Ha, Ho in Hb. discriminate.
      * intros _. simpl. auto 20.
  - rewrite E. unfold screen, outcome. simpl. split; [|split; [|split]].
    + intros d H. destruct (Hout _ H) as [l [v [X|[X|X]]]]; discriminate.
    + intros _ _. split; [now exists e|].
      intro H. destruct (Hout _ H) as [l [v [X|[X|X]]]]; discriminate.
    + intro H. destruct (Hout _ H) as [l [v [X|[X|X]]]]; discriminate.
    + discriminate.
Qed.

Lemma getitem_without_cells (df : DataFrame) (name : string) (s : Series) :
  rows df = [] -> getitem df name = Ok s -> s = [].
Proof.
  intros Hr H. unfold getitem in H.
  destruct (index_of name (column_names df)); [|discriminate].
  inversion H. unfold column_at. now rewrite Hr.
Qed.

(** X9: on a table that has its columns but no rows, the introduction page
    shows 0 cars and an average price of [nan] and then stops with the
    [ValueError] of [int(nan)] at the average distance. *)
Theorem introduction_without_rows (raw clean : DataFrame) :
  rows clean = [] ->
  In "Price" (column_names clean) ->
  In "Kilometers_Driven" (column_names clean) ->
  introduction raw clean
  = ([title "🚗 Cars Analytics Dashboard";
      markdown "🔍 Introduction";
      metric "🚘 Total Cars" (SInt 0);
      metric "💰 Average Price" (SFloat nan)],
     Raise ValueError).
Proof.
  intros Hr Hp Hk.
  destruct (getitem_present clean "Price" Hp) as [p Ep].
  destruct (getitem_present clean "Kilometers_Driven" Hk) as [k Ek].
  pose proof (getitem_without_cells clean _ p Hr Ep). subst p.
  pose proof (getitem_without_cells clean _ k Hr Ek). subst k.
  unfold introduction, len. rewrite Hr, Ep, Ek. reflexivity.
Qed.

(* ===================================================================== *)
(** ** More on the Summary Reporter *)

Lemma nums_nil (s : Series) :
  nums s = [] <-> forall v, In v s -> num_of v = None.
Proof.
  unfold nums. induction s as [|a s IH]; simpl.
  - split; [intros _ v [] | reflexivity].
  - destruct (num_of a) as [z|] eqn:Ea; simpl.
    + split; [discriminate|]. intro H.
      specialize (H a (or_introl eq_refl)). congruence.
    + rewrite IH. split.
      * intros H v [E|Hv]; [now subst | now apply H].
      * intros H v Hv. apply H. now right.
Qed.

Lemma nums_not_nil (s : Series) :
  nums s <> [] <-> exists v z, In v s /\ num_of v = Some z.
Proof.
  split.
  - intro H. destruct (nums s) as [|z l] eqn:E; [easy|].
    assert (Hz : In z (nums s)) by (rewrite E; now left).
    unfold nums in Hz. apply in_flat_map in Hz as [v [Hv Hz]].
    exists v, z. split; [assumption|].
    destruct (num_of v); simpl in Hz; [|easy].
    destruct Hz as [Hz|[]]. now subst.
  - intros [v [z [Hv Ez]]] H.
    rewrite (proj1 (nums_nil s) H v Hv) in Ez. discriminate.
Qed.

Lemma idxmax_without_number (s : Series) :
  existsb is_str s = false -> nums s = [] -> idxmax s = Raise ValueError.
Proof.
  intros Ht Hn. unfold idxmax. rewrite Ht.
  pose proof (idxmax_from_scanned s [] None) as H. simpl in H.
  specialize (H (fun _ F => match F with end)).
  destruct (idxmax_from s 0 None) as [[k m]|]; [|reflexivity].
  simpl in H. destruct H as [[v [Hv Ev]] _]. apply nth_error_In in Hv.
  rewrite (proj1 (nums_nil s) Hn v Hv) in Ev. discriminate.
Qed.

(** X10: when the highest-price line of the conclusion page fails: a missing
    Price column gives [KeyError], a Price column without text and without
    any number has no greatest row and the line raises, and a missing
    Company_Name column gives [KeyError] once the row has been found. *)
Theorem highest_price_car_errors (clean : DataFrame) :
  (~ In "Price" (column_names clean) ->
   highest_price_car clean = Raise (KeyError "Price"))
  /\ (forall p, getitem clean "Price" = Ok p ->
                existsb is_str p = false ->
                nums p = [] ->
                exists e, highest_price_car clean = Raise e)
  /\ (forall p, getitem clean "Price" = Ok p ->
                existsb is_str p = false ->
                nums p <> [] ->
                ~ In "Company_Name" (column_names clean) ->
                highest_price_car clean = Raise (KeyError "Company_Name")).
Proof.
  unfold highest_price_car. split; [|split].
  - intro H. now rewrite (getitem_absent _ _ H).
  - intros p Ep Ht Hn. rewrite Ep. simpl.
    rewrite (idxmax_without_number p Ht Hn). now eexists.
  - intros p Ep Ht Hn Hc. rewrite Ep. simpl.
    destruct (idxmax_first_max p Ht) as [k [m [Ek _]]].
    { now apply nums_not_nil. }
    rewrite Ek. simpl. unfold loc. now rewrite (index_of_None _ _ Hc).
Qed.

(** X11: rows without a price are passed over: when the Price column has no
    text and at least one number, the highest-price line shows the company
    of the first row that holds the greatest price, whatever missing prices
    lie before or after it. *)
Theorem highest_price_skips_missing (clean : DataFrame) (jp jc : nat) :
  index_of "Price" (column_names clean) = Some jp ->
  index_of "Company_Name" (column_names clean) = Some jc ->
  existsb is_str (column_at jp clean) = false ->
  (exists row z, In row (rows clean) /\ num_of (cell jp row) = Some z) ->
  exists i row m,
    nth_error (rows clean) i = Some row
    /\ num_of (cell jp row) = Some m
    /\ highest_price_car clean = Ok (cell jc row)
    /\ forall k other z,
         nth_error (rows clean) k = Some other ->
         num_of (cell jp other) = Some z ->
         z <= m /\ ((k < i)%nat -> z < m).
Proof.
  intros Hp Hc Ht [row0 [z0 [Hr0 Ez0]]].
  destruct (idxmax_first_max (column_at jp clean) Ht) as [i [m [Ei Fm]]].
  { exists (cell jp row0), z0. split; [|assumption].
    unfold column_at. now apply in_map. }
  destruct Fm as [[v [Hv Ev]] Hall].
  unfold column_at in Hv. rewrite nth_error_map in Hv.
  destruct (nth_error (rows clean) i) as [row|] eqn:Erow; [|discriminate].
  simpl in Hv. inversion Hv; subst v. clear Hv.
  exists i, row, m. split; [exact Erow|]. split; [exact Ev|]. split.
  - unfold highest_price_car, getitem. rewrite Hp. simpl. rewrite Ei.
    simpl. unfold loc. now rewrite Hc, Erow.
  - intros k other z Hk Ez. apply (Hall k (cell jp other) z).
    + unfold column_at. rewrite nth_error_map, Hk. reflexivity.
    + exact Ez.
Qed.

Lemma mode_In (m : value) (s : Series) :
  In m (mode s)
  <-> In m s /\ isna m = false
      /\ forall w, isna w = false -> (count w s <= count m s)%nat.
Proof.
  unfold mode. rewrite sort_In, filter_In, unique_In, dropna_In, Nat.eqb_eq.
  split.
  - intros [[Hm Nm] Em]. split; [assumption|]. split; [assumption|].
    intros w Nw. destruct (Nat.eq_0_gt_0_cases (count w s)) as [E|Hpos];
      [lia|].
    apply count_pos in Hpos.
    rewrite <- (count_dropna m s Nm), Em, <- (count_dropna w s Nw).
    apply (max_bound (fun v => count v (dropna s))).
    apply unique_In, dropna_In. now split.
  - intros [Hm [Nm Hmax]]. split; [now split|].
    destruct (max_attained (fun v => count v (dropna s))
                (unique (dropna s))) as [x [Hx Ex]].
    { intro E. assert (Hin : In m (unique (dropna s))).
      { apply unique_In, dropna_In. now split. }
      rewrite E in Hin. destruct Hin. }
    apply Nat.le_antisymm.
    + apply (max_bound (fun v => count v (dropna s))).
      apply unique_In, dropna_In. now split.
    + rewrite <- Ex. apply unique_In, dropna_In in Hx as [Hx Nx].
      rewrite (count_dropna x s Nx), (count_dropna m s Nm).
      now apply Hmax.
Qed.

Lemma mode_not_empty (f : Series) (v : value) :
  In v f -> v <> VNaN ->
  exists m l, mode f = m :: l /\ In m f /\ m <> VNaN.
Proof.
  intros Hv Nv.
  assert (Na : isna v = false) by now destruct v.
  destruct (max_attained (fun w => count w (dropna f))
              (unique (dropna f))) as [x [Hx Ex]].
  { intro E. assert (Hin : In v (unique (dropna f))).
    { apply unique_In, dropna_In. now split. }
    rewrite E in Hin. destruct Hin. }
  assert (Hmode : In x (mode f)).
  { unfold mode. apply sort_In, filter_In. split; [assumption|].
    now apply Nat.eqb_eq. }
  destruct (mode f) as [|m l] eqn:E; [destruct Hmode|].
  assert (Hm : In m (mode f)) by (rewrite E; now left).
  apply mode_In in Hm as [Hm [Nm _]].
  exists m, l. split; [reflexivity|]. split; [assumption|].
  intro X. now subst.
Qed.

(** X12: when the most-common-fuel line of the conclusion page fails or not: a
    missing Fuel_Type column gives [KeyError]; a column without any
    non-missing value (also a table without rows) has no mode, and taking
    its first entry gives [KeyError]; in every other case a value of the
    column is shown. *)
Theorem most_common_fuel_errors (clean : DataFrame) :
  (~ In "Fuel_Type" (column_names clean) ->
   most_common_fuel clean = Raise (KeyError "Fuel_Type"))
  /\ (forall f, getitem clean "Fuel_Type" = Ok f ->
                (forall v, In v f -> v = VNaN) ->
                most_common_fuel clean = Raise (KeyError "0"))
  /\ (forall f v, getitem clean "Fuel_Type" = Ok f ->
                  In v f -> v <> VNaN ->
                  exists m, most_common_fuel clean = Ok m
                            /\ In m f /\ m <> VNaN).
Proof.
  unfold most_common_fuel. split; [|split].
  - intro H. now rewrite (getitem_absent _ _ H).
  - intros f Ef Hall. rewrite Ef. simpl.
    destruct (mode f) as [|m l] eqn:E; [reflexivity|].
    assert (Hm : In m (mode f)) by (rewrite E; now left).
    apply mode_In in Hm as [Hm [Nm _]].
    rewrite (Hall m Hm) in Nm. discriminate.
  - intros f v Ef Hv Nv. rewrite Ef. simpl.
    destruct (mode_not_empty f v Hv Nv) as [m [l [E [Hm Nm]]]].
    rewrite E. exists m. now repeat split.
Qed.

(** X13: on a table whose Price column holds no number (a table without rows,
    say) the conclusion page shows the number of records and then stops
    with an exception at the highest-price line: none of the three computed
    lines is shown. *)
Theorem conclusions_without_prices (pearson : list (Z * Z) -> Q)
  (clean : DataFrame) (p : Series) :
  getitem clean "Price" = Ok p ->
  existsb is_str p = false ->
  nums p = [] ->
  exists e,
    conclusions pearson clean
    = ([title "📌 Automated Insights";
        markdown "📊 Conclusion";
        write "📦 Total Records:" (SInt (len clean))],
       Raise e).
Proof.
  intros Ep Ht Hn. exists ValueError. unfold conclusions, highest_price_car.
  rewrite Ep. simpl bind. rewrite (idxmax_without_number p Ht Hn).
  reflexivity.
Qed.

(* ===================================================================== *)
(** ** More on the strongest correlation with Price *)


Section SortingOrder.

Context {A : Type} (leb : A -> A -> bool).

Lemma insert_perm (a : A) (l : list A) :
  Permutation (insert leb a l) (a :: l).
Proof.
  induction l as [|b l IH]; simpl; [reflexivity|].
  destruct (leb a b); [reflexivity|].
  rewrite IH. apply perm_swap.
Qed.

Lemma sort_perm (l : list A) : Permutation (sort leb l) l.
Proof.
  induction l as [|a l IH]; simpl; [reflexivity|].
  rewrite insert_perm. now constructor.
Qed.

Hypothesis leb_total : forall a b, leb a b = true \/ leb b a = true.
Hypothesis leb_trans :
  forall a b c, leb a b = true -> leb b c = true -> leb a c = true.

Lemma insert_sorted (a : A) (l : list A) :
  Sorted.StronglySorted (fun x y => leb x y = true) l ->
  Sorted.StronglySorted (fun x y => leb x y = true) (insert leb a l).
Proof.
  induction 1 as [|b l Hs IH Hb]; simpl.
  - repeat constructor.
  - destruct (leb a b) eqn:Eab.
    + constructor; [now constructor|].
      constructor; [assumption|].
      rewrite Forall_forall in *. intros x Hx.
      apply leb_trans with b; auto.
    + constructor; [assumption|].
      rewrite Forall_forall in *. intros x Hx.
      apply insert_In in Hx as [Hx|Hx]; [|now apply Hb].
      subst. destruct (leb_total a b); congruence.
Qed.

Lemma sort_sorted (l : list A) :
  Sorted.StronglySorted (fun x y => leb x y = true) (sort leb l).
Proof.
  induction l as [|a l IH]; simpl; [constructor|].
  now apply insert_sorted.
Qed.

End SortingOrder.

Lemma desc_total (a b : string * Q) : desc a b = true \/ desc b a = true.
Proof.
  unfold desc. rewrite !Qle_bool_iff.
  destruct (Qlt_le_dec (snd a) (snd b)) as [H|H]; [right|left]; auto.
  now apply Qlt_le_weak.
Qed.

Lemma desc_trans (a b c : string * Q) :
  desc a b = true -> desc b c = true -> desc a c = true.
Proof.
  unfold desc. rewrite !Qle_bool_iff. intros H1 H2.
  eapply Qle_trans; eassumption.
Qed.

Lemma finite_entries_In (s : labelled) (l : string) (q : Q) :
  In (l, q) (finite_entries s) <-> In (l, fin q) s.
Proof.
  unfold finite_entries. rewrite in_flat_map. split.
  - intros [[l' x] [H E]]. simpl in E. destruct x as [|q']; [easy|].
    destruct E as [E|[]]. now inversion E; subst.
  - intro H. exists (l, fin q). split; [assumption|]. now left.
Qed.

Lemma nan_entries_In (s : labelled) (e : string * float) :
  In e (nan_entries s) <-> In e s /\ snd e = nan.
Proof.
  unfold nan_entries. rewrite filter_In.
  destruct (snd e); split; intros [H1 H2]; split; congruence.
Qed.

Lemma sorted_labels (s : labelled) :
  Permutation (map fst (sort_values_desc s)) (map fst s).
Proof.
  unfold sort_values_desc. rewrite map_app, map_map. simpl.
  rewrite (Permutation_map fst (sort_perm desc (finite_entries s))).
  induction s as [|[l x] s IH]; simpl; [reflexivity|].
  destruct x as [|q]; simpl.
  - rewrite <- Permutation_middle. now constructor.
  - now constructor.
Qed.

Lemma index_at_Some (s : labelled) (n : nat) :
  (n < length s)%nat ->
  exists name, index_at s n = Ok name /\ In name (map fst s).
Proof.
  intro H. unfold index_at.
  destruct (nth_error (map fst s) n) as [name|] eqn:E.
  - exists name. split; [reflexivity|]. eapply nth_error_In; eassumption.
  - apply nth_error_None in E. rewrite length_map in E. lia.
Qed.

Lemma index_at_None (s : labelled) (n : nat) :
  (length s <= n)%nat -> index_at s n = Raise IndexError.
Proof.
  intro H. unfold index_at.
  destruct (nth_error (map fst s) n) eqn:E; [|reflexivity].
  assert (nth_error (map fst s) n <> None) by congruence.
  apply nth_error_Some in H0. rewrite length_map in H0. lia.
Qed.

Lemma map_snd_combine {A B : Type} (l1 : list A) (l2 : list B) :
  length l1 = length l2 -> map snd (combine l1 l2) = l2.
Proof.
  revert l2. induction l1 as [|a l1 IH]; intros [|b l2] H;
    simpl in *; try discriminate; [reflexivity|].
  f_equal. apply IH. lia.
Qed.

Section CorrelationColumn.

Variable pearson : list (Z * Z) -> Q.

Lemma corr_labels (df : DataFrame) :
  map fst (corr pearson df) = column_names df.
Proof.
  unfold corr. rewrite map_map. simpl.
  apply map_snd_combine. unfold column_names.
  now rewrite length_seq, length_map.
Qed.

Lemma corr_column_labels (df : DataFrame) (c : string) (col : labelled) :
  In (c, col) (corr pearson df) -> map fst col = column_names df.
Proof.
  unfold corr. intro H. apply in_map_iff in H as [x [E _]].
  inversion E. rewrite map_map. simpl.
  apply map_snd_combine. unfold column_names.
  now rewrite length_seq, length_map.
Qed.

Lemma corr_getitem (df : DataFrame) (name : string) :
  (In name (column_names df) ->
   exists s, matrix_getitem (corr pearson df) name = Ok s
             /\ map fst s = column_names df)
  /\ (~ In name (column_names df) ->
      matrix_getitem (corr pearson df) name = Raise (KeyError name)).
Proof.
  unfold matrix_getitem. split.
  - intro H.
    destruct (find (fun c => String.eqb name (fst c)) (corr pearson df))
      as [[c col]|] eqn:E.
    + exists col. split; [reflexivity|].
      apply find_some in E as [E _].
      eapply corr_column_labels; eassumption.
    + exfalso. rewrite <- corr_labels in H.
      apply in_map_iff in H as [[c col] [Ec Hc]]. simpl in Ec. subst c.
      pose proof (find_none _ _ E _ Hc) as F. simpl in F.
      now rewrite String.eqb_refl in F.
  - intro H.
    destruct (find (fun c => String.eqb name (fst c)) (corr pearson df))
      as [[c col]|] eqn:E; [|reflexivity].
    exfalso. apply find_some in E as [E F]. simpl in F.
    apply String.eqb_eq in F. subst c. apply H.
    rewrite <- corr_labels. change name with (fst (name, col)).
    now apply in_map.
Qed.

Lemma strongest_correlation_named (clean : DataFrame) :
  In "Price" (num_cols clean) ->
  (2 <= length (num_cols clean))%nat ->
  exists name,
    strongest_correlation pearson clean = Ok name
    /\ In name (num_cols clean).
Proof.
  unfold strongest_correlation, num_cols. intros H Hl.
  destruct (proj1 (corr_getitem (select_dtypes np_number clean) "Price") H)
    as [s [Es El]].
  rewrite Es. simpl.
  destruct (index_at_Some (sort_values_desc s) 1) as [name [En Hn]].
  { rewrite <- (length_map fst), (Permutation_length (sorted_labels s)).
    rewrite El. lia. }
  exists name. split; [assumption|]. rewrite <- El.
  eapply Permutation_in; [apply sorted_labels | exact Hn].
Qed.

(** X14: the outcome of the strongest-correlation line: [KeyError] when Price
    is not among the numeric columns (absent, or read as text),
    [IndexError] when it is the only numeric column, and the name of a
    numeric column in every other case. *)
Theorem strongest_correlation_outcome (clean : DataFrame) :
  (~ In "Price" (num_cols clean) ->
   strongest_correlation pearson clean = Raise (KeyError "Price"))
  /\ (In "Price" (num_cols clean) ->
      (length (num_cols clean) < 2)%nat ->
      strongest_correlation pearson clean = Raise IndexError)
  /\ (In "Price" (num_cols clean) ->
      (2 <= length (num_cols clean))%nat ->
      exists name,
        strongest_correlation pearson clean = Ok name
        /\ In name (num_cols clean)).
Proof.
  unfold strongest_correlation, num_cols.
  destruct (corr_getitem (select_dtypes np_number clean) "Price")
    as [Hin Hout].
  split; [|split].
  - intro H. now rewrite (Hout H).
  - intros H Hl. destruct (Hin H) as [s [Es El]]. rewrite Es. simpl.
    apply index_at_None.
    rewrite <- (length_map fst), (Permutation_length (sorted_labels s)).
    rewrite El. lia.
  - intros H Hl. fold (num_cols clean) in H, Hl.
    exact (strongest_correlation_named clean H Hl).
Qed.

End CorrelationColumn.

Lemma label_unique {B : Type} (s : list (string * B)) (l : string)
  (x y : B) :
  NoDup (map fst s) -> In (l, x) s -> In (l, y) s -> x = y.
Proof.
  induction s as [|[n d] s IH]; simpl; intros ND H1 H2; [easy|].
  inversion ND as [|? ? Hn ND']; subst.
  destruct H1 as [H1|H1], H2 as [H2|H2].
  - congruence.
  - inversion H1; subst. exfalso. apply Hn.
    change l with (fst (l, y)). now apply in_map.
  - inversion H2; subst. exfalso. apply Hn.
    change l with (fst (l, x)). now apply in_map.
  - now apply IH.
Qed.

Lemma NoDup_sublist {A : Type} (l1 l2 : list A) :
  sublist l1 l2 -> NoDup l2 -> NoDup l1.
Proof.
  induction 1 as [|x l1 l2 H IH|x l1 l2 H IH]; intro ND.
  - constructor.
  - inversion ND; subst. now apply IH.
  - inversion ND as [|? ? Hn ND']; subst. constructor; [|now apply IH].
    intro Hx. apply Hn. eapply sublist_In; eassumption.
Qed.

(** The second entry of the sorted column when a label [top] leads it
    strictly. *)
Lemma second_after_leader (s : labelled) (top : string) (p : Q) :
  NoDup (map fst s) ->
  (2 <= length s)%nat ->
  In (top, fin p) s ->
  (forall l q, In (l, fin q) s -> l <> top -> (q < p)%Q) ->
  exists name,
    index_at (sort_values_desc s) 1 = Ok name
    /\ name <> top
    /\ In name (map fst s)
    /\ forall x, In (name, x) s ->
       forall l q, In (l, fin q) s -> l <> top ->
                   exists r, x = fin r /\ (q <= r)%Q.
Proof.
  intros ND Hlen Htop Hlead.
  destruct (index_at_Some (sort_values_desc s) 1) as [name [En Hn]].
  { rewrite <- (length_map fst), (Permutation_length (sorted_labels s)).
    rewrite length_map. lia. }
  assert (Hn' : In name (map fst s)).
  { eapply Permutation_in; [apply sorted_labels | exact Hn]. }
  assert (NDs : NoDup (map fst (sort_values_desc s))).
  { eapply Permutation_NoDup; [symmetry; apply sorted_labels | exact ND]. }
  pose proof (sort_sorted desc desc_total desc_trans (finite_entries s))
    as Hsorted.
  assert (Hp : In (top, p) (sort desc (finite_entries s))).
  { apply sort_In, finite_entries_In. exact Htop. }
  pose proof En as En0.
  unfold index_at in En. unfold sort_values_desc in En, NDs.
  destruct (sort desc (finite_entries s)) as [|a rest] eqn:Es;
    [destruct Hp|].
  (* the head is the leader *)
  assert (Ha : fst a = top).
  { destruct (string_dec (fst a) top) as [E|E]; [assumption|]. exfalso.
    assert (Hin : In a (sort desc (finite_entries s)))
      by (rewrite Es; now left).
    apply sort_In in Hin. destruct a as [la qa].
    apply finite_entries_In in Hin.
    pose proof (Hlead la qa Hin E) as Hlt. simpl in *.
    inversion Hsorted as [|? ? _ Hall]; subst.
    destruct Hp as [Hp|Hp]; [inversion Hp; subst; now apply E|].
    rewrite Forall_forall in Hall. specialize (Hall _ Hp).
    unfold desc in Hall. simpl in Hall. apply Qle_bool_iff in Hall.
    apply (Qlt_irrefl p). eapply Qle_lt_trans; eassumption. }
  exists name. simpl in En, NDs.
  destruct rest as [|b rest'].
  - (* no other finite entry: the second label is a missing one *)
    simpl in En, NDs.
    destruct (nan_entries s) as [|e N] eqn:EN; [discriminate|].
    simpl in En, NDs. inversion En; subst name. clear En.
    split; [exact En0|]. split.
    { inversion NDs as [|? ? Hx _]; subst. intro E. apply Hx.
      rewrite E. now left. }
    split; [assumption|].
    intros x Hx l q Hl Hne. exfalso.
    apply finite_entries_In in Hl.
    apply (sort_In desc) in Hl. rewrite Es in Hl.
    destruct Hl as [Hl|[]]. subst a. now apply Hne.
  - (* the second finite entry *)
    simpl in En, NDs. inversion En; subst name. clear En.
    split; [exact En0|]. split.
    { inversion NDs as [|? ? Hx _]; subst. intro E. apply Hx.
      rewrite E. now left. }
    split; [assumption|].
    intros x Hx l q Hl Hne.
    assert (Hb : In (fst b, fin (snd b)) s).
    { apply finite_entries_In. apply (sort_In desc). rewrite Es.
      right. left. now destruct b. }
    assert (x = fin (snd b)) by (eapply label_unique; eassumption).
    subst x. exists (snd b). split; [reflexivity|].
    apply finite_entries_In in Hl.
    apply (sort_In desc) in Hl. rewrite Es in Hl.
    destruct Hl as [Hl|[Hl|Hl]].
    + subst a. exfalso. now apply Hne.
    + subst b. apply Qle_refl.
    + inversion Hsorted as [|? ? Hs' _]; subst.
      inversion Hs' as [|? ? _ Hall]; subst.
      rewrite Forall_forall in Hall. specialize (Hall _ Hl).
      unfold desc in Hall. simpl in Hall. now apply Qle_bool_iff in Hall.
Qed.

(** X15: where the strongest-correlation line does what its label says: when
    the coefficient of Price with itself is finite and strictly above the
    finite coefficient of every other numeric column, the line names a
    numeric column other than Price whose coefficient is at least that of
    every other column; only when no other column has a finite coefficient
    is the column it names one with a [nan] coefficient. *)
Theorem strongest_correlation_when_price_leads
  (pearson : list (Z * Z) -> Q) (clean : DataFrame) (s : labelled)
  (p : Q) :
  NoDup (column_names clean) ->
  matrix_getitem (corr pearson (select_dtypes np_number clean)) "Price"
  = Ok s ->
  (2 <= length s)%nat ->
  In ("Price", fin p) s ->
  (forall l q, In (l, fin q) s -> l <> "Price" -> (q < p)%Q) ->
  exists name,
    strongest_correlation pearson clean = Ok name
    /\ name <> "Price"
    /\ In name (num_cols clean)
    /\ forall x, In (name, x) s ->
       forall l q, In (l, fin q) s -> l <> "Price" ->
                   exists r, x = fin r /\ (q <= r)%Q.
Proof.
  intros ND Es Hlen Hp Hlead.
  assert (El : map fst s = num_cols clean).
  { destruct (corr_getitem pearson (select_dtypes np_number clean) "Price")
      as [Hin Hout].
    destruct (In_dec string_dec "Price"
                (column_names (select_dtypes np_number clean))) as [H|H].
    - destruct (Hin H) as [s' [Es' El']]. rewrite Es in Es'.
      inversion Es'; subst s'. exact El'.
    - rewrite (Hout H) in Es. discriminate. }
  destruct (second_after_leader s "Price" p) as [name [En [Hne [Hn Hmax]]]];
    try assumption.
  { rewrite El. eapply NoDup_sublist;
      [apply selection_names_sublist | exact ND]. }
  exists name. unfold strongest_correlation. rewrite Es. simpl.
  split; [exact En|]. split; [exact Hne|]. split; [now rewrite <- El|].
  exact Hmax.
Qed.

(* ===================================================================== *)
(** ** More on the Chart Selector *)

Lemma num_cols_present (df : DataFrame) (x : string) :
  In x (num_cols df) -> In x (column_names df).
Proof.
  intro H. eapply sublist_In; [apply selection_names_sublist | exact H].
Qed.

Lemma positions_present (names all : list string) :
  incl names all ->
  exists js, positions names all = Ok js
             /\ length js = length names
             /\ forall cols : list (string * dtype),
                  map fst cols = all ->
                  map (fun j => fst (nth j cols ("", object_))) js = names.
Proof.
  induction names as [|n names IH]; intro H; simpl.
  - exists []. now repeat split.
  - destruct IH as [js [Ejs [Hl Hn]]].
    { intros x Hx. apply H. now right. }
    destruct (index_of_Some n all) as [j Ej].
    { apply H. now left. }
    rewrite Ej, Ejs. simpl. exists (j :: js).
    split; [reflexivity|]. split; [simpl; lia|].
    intros cols Hc. simpl. rewrite (Hn cols Hc). f_equal.
    apply index_of_nth. now rewrite Hc.
Qed.

Lemma getitem_list_present (df : DataFrame) (names : list string) :
  incl names (column_names df) ->
  exists d, getitem_list df names = Ok d
            /\ column_names d = names
            /\ length (rows d) = length (rows df).
Proof.
  intro H. destruct (positions_present names (column_names df) H)
    as [js [Ejs [_ Hn]]].
  unfold getitem_list. rewrite Ejs. simpl. eexists.
  split; [reflexivity|]. split.
  - unfold column_names at 1. simpl. rewrite map_map.
    now apply Hn.
  - simpl. now rewrite length_map.
Qed.

Section MoreCharts.

Variable pearson : list (Z * Z) -> Q.

(** X16: the bivariate selector reads columns only in the numeric by numeric
    case, where both exist, so its own column reads never fail; and it
    writes a correlation to the page exactly in that case. *)
Theorem bivariate_correlation_line (df : DataFrame) (x y : string) :
  (exists c, outcome (bivariate pearson df x y) = Ok c)
  /\ (screen (bivariate pearson df x y) <> []
      <-> In x (num_cols df) /\ In y (num_cols df)).
Proof.
  unfold bivariate.
  destruct (mem x (num_cols df)) eqn:Ex;
    destruct (mem y (num_cols df)) eqn:Ey; simpl.
  - apply mem_In in Ex as Hx. apply mem_In in Ey as Hy.
    destruct (getitem_present df x (num_cols_present df x Hx)) as [sx Esx].
    destruct (getitem_present df y (num_cols_present df y Hy)) as [sy Esy].
    rewrite Esx, Esy. simpl. split; [now eexists|].
    split; [now intros _ | discriminate].
  - apply mem_not_In in Ey.
    destruct (mem y (cat_cols df)); simpl.
    + split; [now eexists|]. split; [congruence | intros [_ H]; easy].
    + destruct (mem x (cat_cols df) && false); simpl;
        (split; [now eexists|]);
        (split; [congruence | intros [_ H]; easy]).
  - apply mem_not_In in Ex.
    destruct (mem x (cat_cols df)); simpl;
      (split; [now eexists|]);
      (split; [congruence | intros [H _]; easy]).
  - apply mem_not_In in Ex.
    destruct (mem x (cat_cols df) && false); simpl;
      (split; [now eexists|]);
      (split; [congruence | intros [H _]; easy]).
Qed.

(** X17: the heat map and the pair plot are drawn over exactly the numeric
    columns, in column order, and neither raises on any table: the
    correlation matrix has one column and one row per numeric column, and
    the pair plot gets all rows of these columns. *)
Theorem numeric_views (df : DataFrame) :
  (exists m,
      multivariate pearson df "Heatmap" = ([pyplot (heatmap m)], Ok tt)
      /\ map fst m = num_cols df
      /\ forall c col, In (c, col) m -> map fst col = num_cols df)
  /\ (exists d,
        multivariate pearson df "Pairplot" = ([pyplot (pairplot d)], Ok tt)
        /\ column_names d = num_cols df
        /\ length (rows d) = length (rows df)).
Proof.
  destruct (getitem_list_present df (num_cols df)) as [d [Ed [Hn Hr]]].
  { intros x Hx. now apply num_cols_present. }
  unfold multivariate. simpl. rewrite Ed. split.
  - exists (corr pearson d). split; [reflexivity|]. split.
    + now rewrite corr_labels.
    + intros c col H. rewrite <- Hn. eapply corr_column_labels; eassumption.
  - exists d. now repeat split.
Qed.

Lemma bivariate_outcome (df : DataFrame) (x y : string) :
  exists c, outcome (bivariate pearson df x y) = Ok c.
Proof.
  unfold bivariate.
  destruct (mem x (num_cols df) && mem y (num_cols df)) eqn:E.
  - apply andb_true_iff in E as [Ex Ey].
    apply mem_In in Ex. apply mem_In in Ey.
    destruct (getitem_present df x (num_cols_present df x Ex)) as [sx Esx].
    destruct (getitem_present df y (num_cols_present df y Ey)) as [sy Esy].
    rewrite Esx, Esy. simpl. now eexists.
  - destruct (mem x (num_cols df) && mem y (cat_cols df));
      [now eexists|].
    destruct (mem x (cat_cols df) && mem y (num_cols df)); now eexists.
Qed.

Lemma multivariate_outcome (df : DataFrame) (option : string) :
  outcome (multivariate pearson df option) = Ok tt.
Proof.
  destruct (getitem_list_present df (num_cols df)) as [d [Ed _]].
  { intros x Hx. now apply num_cols_present. }
  unfold multivariate. rewrite Ed.
  destruct (String.eqb option "Heatmap"); [reflexivity|].
  destruct (String.eqb option "Pairplot"); [reflexivity|].
  destruct (has_column "Fuel_Type" df && has_column "Price" df);
    reflexivity.
Qed.

Lemma univariate_outcome (df : DataFrame) (col dist : string) :
  In col (column_names df) ->
  exists c, outcome (univariate df col dist) = Ok c.
Proof.
  intro H. destruct (getitem_present df col H) as [s Es].
  unfold univariate. rewrite Es.
  destruct (mem col (cat_cols df)); [now eexists|].
  destruct (String.eqb dist "Histogram"); [now eexists|].
  destruct (String.eqb dist "KDE"); now eexists.
Qed.

Lemma existsb_filtered {A B : Type} (p : B -> bool) (g : A -> B)
  (f : A -> bool) (l : list A) :
  existsb p (map g l) = false -> existsb p (map g (filter f l)) = false.
Proof.
  induction l as [|a l IH]; simpl; [easy|].
  intro H. apply orb_false_iff in H as [H1 H2].
  destruct (f a); simpl; [rewrite H1|]; now apply IH.
Qed.

Lemma kpis_outcome (df : DataFrame) (p w : Series) :
  getitem df "Price" = Ok p -> existsb is_str p = false ->
  getitem df "Power_value" = Ok w -> existsb is_str w = false ->
  outcome (kpis df) = Ok tt.
Proof.
  intros Ep Tp Ew Tw.
  destruct (mean_without_text p Tp) as [mp Emp].
  destruct (mean_without_text w Tw) as [mw Emw].
  unfold kpis. rewrite Ep. run. rewrite Emp. run. rewrite Ew. run.
  rewrite Emw. reflexivity.
Qed.

(** X18: the analysis page renders to its end, for every setting of its
    widgets that names an existing column for the univariate chart, when
    the table has the Company_Name column, a Year column without text and
    with at least one number, and Price and Power_value columns without
    text. *)
Theorem analysis_completes (clean : DataFrame) (ui : Inputs)
  (y p w : Series) :
  In "Company_Name" (column_names clean) ->
  getitem clean "Year" = Ok y ->
  existsb is_str y = false ->
  nums y <> [] ->
  getitem clean "Price" = Ok p ->
  existsb is_str p = false ->
  getitem clean "Power_value" = Ok w ->
  existsb is_str w = false ->
  In (ui_col ui) (column_names clean) ->
  outcome (analysis pearson clean ui) = Ok tt.
Proof.
  intros Hc Ey Ty Ny Ep Tp Ew Tw Hcol.
  destruct (getitem_present clean "Company_Name" Hc) as [c Ec].
  assert (Eco : company_options clean = Ok (unique c)).
  { unfold company_options. now rewrite Ec. }
  assert (Eyr : exists yr, year_range clean = Ok yr).
  { unfold year_range. rewrite Ey. simpl.
    unfold Series_min, Series_max, numeric. rewrite Ty. simpl.
    destruct (nums y); [easy|]. simpl. now eexists. }
  destruct Eyr as [yr Eyr].
  assert (Edf : exists jc jy,
             index_of "Company_Name" (column_names clean) = Some jc
             /\ index_of "Year" (column_names clean) = Some jy
             /\ y = column_at jy clean).
  { unfold getitem in Ec, Ey.
    destruct (index_of "Company_Name" (column_names clean)) as [jc|];
      [|discriminate].
    destruct (index_of "Year" (column_names clean)) as [jy|];
      [|discriminate].
    exists jc, jy. inversion Ey. now repeat split. }
  destruct Edf as [jc [jy [Hjc [Hjy Hy]]]]. subst y.
  pose proof (filter_engine_rows clean jc jy (ui_company ui) (ui_year ui)
                Hjc Hjy Ty) as Ef.
  set (df := {| columns := columns clean;
                rows := filter (selected jc jy (ui_company ui) (ui_year ui))
                          (rows clean) |}) in *.
  assert (Kp : outcome (kpis df) = Ok tt).
  { unfold getitem in Ep, Ew.
    destruct (index_of "Price" (column_names clean)) as [jp|] eqn:Hjp;
      [|discriminate].
    destruct (index_of "Power_value" (column_names clean)) as [jw|] eqn:Hjw;
      [|discriminate].
    inversion Ep; subst p. inversion Ew; subst w.
    apply (kpis_outcome df (column_at jp df) (column_at jw df)).
    - unfold getitem. change (column_names df) with (column_names clean).
      now rewrite Hjp.
    - unfold column_at, df. simpl. now apply existsb_filtered.
    - unfold getitem. change (column_names df) with (column_names clean).
      now rewrite Hjw.
    - unfold column_at, df. simpl. now apply existsb_filtered. }
  destruct (univariate_outcome df (ui_col ui) (ui_dist ui) Hcol) as [f1 E1].
  destruct (bivariate_outcome df (ui_x ui) (ui_y ui)) as [f2 E2].
  unfold analysis.
  rewrite outcome_then. cbn [outcome emit snd].
  rewrite outcome_then. cbn [outcome eval snd]. rewrite Eco.
  rewrite outcome_then. cbn [outcome eval snd]. rewrite Eyr.
  rewrite outcome_then. cbn [outcome eval snd]. rewrite Ef.
  rewrite outcome_then, Kp.
  rewrite outcome_then. cbn [outcome emit snd].
  rewrite outcome_then, E1.
  rewrite outcome_then. cbn [outcome emit snd].
  rewrite outcome_then. cbn [outcome emit snd].
  rewrite outcome_then, E2.
  rewrite outcome_then. cbn [outcome emit snd].
  rewrite outcome_then. cbn [outcome emit snd].
  apply multivariate_outcome.
Qed.

(** X19: on a table whose Year column holds no number (a table without rows,
    say) the analysis page shows its title and stops with the
    [ValueError] of [int(nan)] while setting up the year slider, before
    any filter or chart. *)
Theorem analysis_without_years (clean : DataFrame) (ui : Inputs)
  (y : Series) :
  In "Company_Name" (column_names clean) ->
  getitem clean "Year" = Ok y ->
  existsb is_str y = false ->
  nums y = [] ->
  analysis pearson clean ui
  = ([title "📊 Exploratory Analysis Studio"], Raise ValueError).
Proof.
  intros Hc Ey Ty Ny.
  destruct (getitem_present clean "Company_Name" Hc) as [c Ec].
  assert (Eco : company_options clean = Ok (unique c)).
  { unfold company_options. now rewrite Ec. }
  assert (Eyr : year_range clean = Raise ValueError).
  { unfold year_range. rewrite Ey. simpl.
    unfold Series_min, numeric. rewrite Ty. simpl. now rewrite Ny. }
  unfold analysis. rewrite Eco, Eyr. reflexivity.
Qed.


End MoreCharts.

(* ===================================================================== *)
(** ** The raw table *)

(** X21: the raw table is only displayed: whether a page raises, and with
    which exception, does not depend on it, and replacing it changes
    nothing on the screen but the raw-dataset display of the introduction
    page. *)
Theorem raw_table_only_displayed (pearson : list (Z * Z) -> Q)
  (raw raw' clean : DataFrame) (page : string) (ui : Inputs) :
  outcome (app pearson raw clean page ui)
  = outcome (app pearson raw' clean page ui)
  /\ forall o, In o (screen (app pearson raw clean page ui)) ->
               o = dataframe raw
               \/ In o (screen (app pearson raw' clean page ui)).
Proof.
  unfold app.
  destruct (String.eqb page "🚘 Introduction"); [|now auto].
  unfold introduction.
  destruct (getitem clean "Price") as [p|e]; [|simpl; now auto].
  run. destruct (mean p) as [mp|e]; [|simpl; now auto].
  run. destruct (getitem clean "Kilometers_Driven") as [k|e];
    [|simpl; now auto].
  run. destruct (mean k) as [mk|e]; [|simpl; now auto].
  run. destruct (py_int mk) as [i|e]; [|simpl; now auto].
  run. destruct (getitem clean "Company_Name") as [c|e]; [|simpl; now auto].
  run.
  destruct (has_column "Latitude" clean && has_column "Longitude" clean).
  - destruct (getitem_list clean ["Latitude"; "Longitude"]) as [d|e].
    + run. destruct (st_map d) as [shown r]. simpl. split; [reflexivity|].
      intros o H; decompose [or] H; subst; auto 20.
    + simpl. split; [reflexivity|].
      intros o H; decompose [or] H; subst; auto 20; contradiction.
  - simpl. split; [reflexivity|].
    intros o H; decompose [or] H; subst; auto 20; contradiction.
Qed.

(* ===================================================================== *)
(** ** The further properties on the example frames *)

(** X1 on an example frame. *)
Lemma filter_engine_subtable_witness :
  columns (mkDataFrame (columns cars)
             [[VStr "Maruti"; VNum 2015; VNum 5; VNum 80;
               VStr "Petrol"; VBool false]])
  = columns cars
  /\ num_cols (mkDataFrame (columns cars)
                 [[VStr "Maruti"; VNum 2015; VNum 5; VNum 80;
                   VStr "Petrol"; VBool false]])
     = num_cols cars
  /\ cat_cols (mkDataFrame (columns cars)
                 [[VStr "Maruti"; VNum 2015; VNum 5; VNum 80;
                   VStr "Petrol"; VBool false]])
     = cat_cols cars
  /\ sublist (rows (mkDataFrame (columns cars)
                      [[VStr "Maruti"; VNum 2015; VNum 5; VNum 80;
                        VStr "Petrol"; VBool false]]))
             (rows cars)
  /\ len (mkDataFrame (columns cars)
            [[VStr "Maruti"; VNum 2015; VNum 5; VNum 80;
              VStr "Petrol"; VBool false]])
     <= len cars.
Proof.
  apply (filter_engine_subtable cars [VStr "Maruti"] (2013, 2018)).
  reflexivity.
Defined.

(** X3 on an example frame. *)
Lemma filter_engine_monotone_witness :
  sublist
    (rows (mkDataFrame (columns cars)
             [[VStr "Maruti"; VNum 2015; VNum 5; VNum 80;
               VStr "Petrol"; VBool false]]))
    (rows (mkDataFrame (columns cars)
             [[VStr "Maruti"; VNum 2015; VNum 5; VNum 80;
               VStr "Petrol"; VBool false];
              [VStr "Honda"; VNum 2018; VNum 9; VNum 100;
               VStr "Diesel"; VBool true];
              [VStr "Maruti"; VNum 2012; VNum 9; VNum 70;
               VStr "Diesel"; VBool false]])).
Proof.
  apply (filter_engine_monotone cars [VStr "Maruti"]
           [VStr "Maruti"; VStr "Honda"] 2013 2018 2012 2018).
  - intros v [E|[]]. subst. now left.
  - lia.
  - lia.
  - reflexivity.
  - reflexivity.
Defined.

(** X4 on an example frame with a missing year. *)
Lemma year_range_attained_witness :
  year_range cars_missing_year = Ok (2015, 2018)
  /\ exists lo hi,
       year_range cars_missing_year = Ok (lo, hi)
       /\ (exists row, In row (rows cars_missing_year)
                       /\ cell 1 row = VNum lo)
       /\ (exists row, In row (rows cars_missing_year)
                       /\ cell 1 row = VNum hi)
       /\ forall row z, In row (rows cars_missing_year) ->
                        cell 1 row = VNum z -> lo <= z <= hi.
Proof.
  split; [reflexivity|].
  apply (year_range_attained cars_missing_year 1).
  - reflexivity.
  - intros row H. simpl in H.
    destruct H as [H|[H|[H|[]]]]; subst row; simpl;
      [right; now eexists | now left | right; now eexists].
  - exists [VStr "Maruti"; VNum 2015; VNum 5], 2015.
    split; [now left | reflexivity].
Defined.

(** X5 on an example frame. *)
Lemma company_options_cover_witness :
  company_options cars = Ok [VStr "Maruti"; VStr "Honda"; VStr "BMW"]
  /\ exists options,
       company_options cars = Ok options
       /\ NoDup options
       /\ (forall v, In v options
                     <-> In v [VStr "Maruti"; VStr "Honda"; VStr "Maruti";
                               VStr "BMW"])
       /\ (forall i j u v,
             nth_error options i = Some u ->
             nth_error options j = Some v ->
             (i < j)%nat ->
             exists k,
               nth_error [VStr "Maruti"; VStr "Honda"; VStr "Maruti";
                          VStr "BMW"] k = Some u
               /\ forall k',
                    nth_error [VStr "Maruti"; VStr "Honda"; VStr "Maruti";
                               VStr "BMW"] k' = Some v -> (k < k')%nat)
       /\ forallb (fun b => b)
            (isin [VStr "Maruti"; VStr "Honda"; VStr "Maruti"; VStr "BMW"]
               options) = true.
Proof.
  split; [reflexivity|].
  apply (company_options_cover cars). reflexivity.
Defined.

(** X6 on an example frame. *)
Lemma companies_at_most_cars_witness :
  0 <= nunique [VStr "Maruti"; VStr "Honda"; VStr "Maruti"; VStr "BMW"]
    <= len cars
  /\ (nunique [VStr "Maruti"; VStr "Honda"; VStr "Maruti"; VStr "BMW"] = 0
      <-> forall v, In v [VStr "Maruti"; VStr "Honda"; VStr "Maruti";
                          VStr "BMW"] -> v = VNaN).
Proof.
  apply (companies_at_most_cars cars). reflexivity.
Defined.

(** X9 on an example frame. *)
Lemma introduction_without_rows_witness :
  introduction cars cars_header_only
  = ([title "🚗 Cars Analytics Dashboard";
      markdown "🔍 Introduction";
      metric "🚘 Total Cars" (SInt 0);
      metric "💰 Average Price" (SFloat nan)],
     Raise ValueError).
Proof.
  apply (introduction_without_rows cars cars_header_only).
  - reflexivity.
  - simpl. auto.
  - simpl. auto 10.
Defined.

(** X11 on an example frame. *)
Lemma highest_price_skips_missing_witness :
  exists i row m,
    nth_error (rows cars_with_gaps) i = Some row
    /\ num_of (cell 1 row) = Some m
    /\ highest_price_car cars_with_gaps = Ok (cell 0 row)
    /\ forall k other z,
         nth_error (rows cars_with_gaps) k = Some other ->
         num_of (cell 1 other) = Some z ->
         z <= m /\ ((k < i)%nat -> z < m).
Proof.
  apply (highest_price_skips_missing cars_with_gaps 1 0).
  - reflexivity.
  - reflexivity.
  - reflexivity.
  - exists [VStr "Honda"; VNum 7], 7. split; [simpl; auto | reflexivity].
Defined.

(** X13 on an example frame. *)
Lemma conclusions_without_prices_witness :
  exists e,
    conclusions agree_or_half cars_header_only
    = ([title "📌 Automated Insights";
        markdown "📊 Conclusion";
        write "📦 Total Records:" (SInt (len cars_header_only))],
       Raise e).
Proof.
  apply (conclusions_without_prices agree_or_half cars_header_only []).
  - reflexivity.
  - reflexivity.
  - reflexivity.
Defined.

(** X15 on an example frame. *)
Lemma strongest_correlation_when_price_leads_witness :
  exists name,
    strongest_correlation agree_or_half cars = Ok name
    /\ name <> "Price"
    /\ In name (num_cols cars)
    /\ forall x,
         In (name, x) [("Year", fin (1 # 2)); ("Price", fin 1);
                       ("Power_value", fin (1 # 2))] ->
         forall l q,
           In (l, fin q) [("Year", fin (1 # 2)); ("Price", fin 1);
                          ("Power_value", fin (1 # 2))] ->
           l <> "Price" -> exists r, x = fin r /\ (q <= r)%Q.
Proof.
  apply (strongest_correlation_when_price_leads agree_or_half cars
           [("Year", fin (1 # 2)); ("Price", fin 1);
            ("Power_value", fin (1 # 2))] 1%Q).
  - exact cars_names_distinct.
  - reflexivity.
  - simpl. lia.
  - simpl. auto.
  - intros l q H Hne. simpl in H.
    destruct H as [H|[H|[H|[]]]]; inversion H; subst;
      [reflexivity | now elim Hne | reflexivity].
Defined.

(** X18 on an example frame. *)
Lemma analysis_completes_witness :
  outcome (analysis agree_or_half cars sample_inputs) = Ok tt.
Proof.
  apply (analysis_completes agree_or_half cars sample_inputs
           [VNum 2015; VNum 2018; VNum 2012; VNum 2018]
           [VNum 5; VNum 9; VNum 9; VNum 3]
           [VNum 80; VNum 100; VNum 70; VNum 150]).
  - simpl. auto.
  - reflexivity.
  - reflexivity.
  - discriminate.
  - reflexivity.
  - reflexivity.
  - reflexivity.
  - reflexivity.
  - simpl. auto 10.
Defined.

(** X19 on an example frame. *)
Lemma analysis_without_years_witness :
  analysis agree_or_half cars_header_only sample_inputs
  = ([title "📊 Exploratory Analysis Studio"], Raise ValueError).
Proof.
  apply (analysis_without_years agree_or_half cars_header_only
           sample_inputs []).
  - simpl. auto.
  - reflexivity.
  - reflexivity.
  - reflexivity.
Defined.



(** X8 on an example frame with coordinates: the page stops at the map. *)
Lemma location_map_guard_witness :
  introduction cars located_cars
  = ([title "🚗 Cars Analytics Dashboard";
      markdown "🔍 Introduction";
      metric "🚘 Total Cars" (SInt 2);
      metric "💰 Average Price" (SFloat (fin (700 # 100)));
      metric "📏 Average KM" (SInt 32500);
      metric "🏭 Total Companies" (SInt 2);
      subheader "📄 Raw Dataset";
      dataframe cars;
      subheader "🧹 Cleaned Dataset";
      dataframe located_cars;
      subheader "🗺️ Location Map"],
     Raise StreamlitAPIException)
  /\ outcome (introduction cars located_cars) = Raise StreamlitAPIException.
Proof.
  split; [reflexivity|].
  apply (proj1 (proj2 (location_map_guard cars located_cars))).
  - simpl. auto 10.
  - simpl. auto 10.
  - simpl. auto 20.
Defined.
